(** * Conversation synchronisation layer of the chat client

    A shallow embedding of the browser client of the chat application:
    the axios instance of [httpClient.ts] with its two interceptors, the
    [ProtectedRoute] guard, and the [Chat] component (its three pieces of
    React state, the [chatHistory] query, the three mutations and the
    four event handlers), followed by the properties of the
    synchronisation layer.

    JavaScript strings are sequences of UTF-16 code units, kept here as
    [list N].  [localStorage] is a finite map from strings to strings.
    Promises are modelled by an explicit table of requests in flight: a
    handler that calls the gateway adds an entry, and the event
    [Settle rid o] runs the continuation attached to entry [rid] with the
    transport outcome [o]. *)

From Stdlib Require Import ZArith NArith Ascii String DecimalString DecimalZ.
From stdpp Require Import gmap list.

Local Open Scope Z_scope.

(** ** JavaScript strings *)

Module JS.

(** A string literal of the source (ASCII only) as code units. *)
Definition lit (s : string) : list N :=
  map N_of_ascii (list_ascii_of_string s).

(** ECMAScript [WhiteSpace] and [LineTerminator] code points, the set
    that [String.prototype.trim] strips.  All of them lie in the basic
    plane, so the test is exact on code units. *)
Definition isWhiteSpace (c : N) : bool :=
  ((9 <=? c) && (c <=? 13) ||
   (c =? 32) || (c =? 160) || (c =? 5760) ||
   (8192 <=? c) && (c <=? 8202) ||
   (c =? 8232) || (c =? 8233) || (c =? 8239) || (c =? 8287) ||
   (c =? 12288) || (c =? 65279))%N.

Fixpoint trimStart (s : list N) : list N :=
  match s with
  | [] => []
  | c :: s' => if isWhiteSpace c then trimStart s' else s
  end.

Definition trimEnd (s : list N) : list N := rev (trimStart (rev s)).

(** [s.trim()] *)
Definition trim (s : list N) : list N := trimEnd (trimStart s).

(** Truthiness of a string value: every string but [''] is truthy. *)
Definition truthy (s : list N) : bool :=
  match s with [] => false | _ :: _ => true end.

(** [n.toString()] for an integer-valued number, as message ids are:
    the decimal numeral, with a leading minus sign for negative values
    (JavaScript prints integers this way below 10^21 in absolute
    value). *)
Definition toString (n : Z) : list N :=
  lit (NilEmpty.string_of_int (Z.to_int n)).

End JS.

(** ** The transport collaborator (axios) *)

(** [ChatMessage] as declared in [Chat.tsx]. *)
Record ChatMessage := {
  id : Z;
  content : list N;
  reply_to : option Z;
  is_from_user : bool;
  buttons : list (list N)
}.

Module Axios.

Inductive Method := GET | POST | PUT | DELETE.

(** The part of a request configuration the client fills in.  The
    only JSON body the chat view sends is [{ content }], kept as its
    [content] field. *)
Record Config := {
  method : Method;
  url : list N;
  body : option (list N);
  Authorization : option (list N)
}.

(** [data] is the parsed body.  The client reads it only for the
    history query, where it is the list of messages; the mutations never
    look at it. *)
Record Response := {
  status : Z;
  data : list ChatMessage
}.

(** An axios error carries [error.response] when the server answered
    and leaves it undefined on a transport failure. *)
Record Error := { response : option Response }.

(** What the transport did with a dispatched request. *)
Inductive Outcome :=
| Responded (r : Response)
| NoResponse.

(** State of the promise returned by a request. *)
Inductive Settled :=
| Fulfilled (r : Response)
| Rejected (e : Error).

(** axios' default [validateStatus]. *)
Definition validateStatus (s : Z) : bool := (200 <=? s) && (s <? 300).

Definition settle (o : Outcome) : Settled :=
  match o with
  | Responded r =>
      if validateStatus (status r) then Fulfilled r
      else Rejected {| response := Some r |}
  | NoResponse => Rejected {| response := None |}
  end.

End Axios.

(** ** The browser: [localStorage] and [window.location.href] *)

Record Browser := {
  localStorage : gmap (list N) (list N);
  location_href : list N
}.

Definition getItem (key : list N) (b : Browser) : option (list N) :=
  localStorage b !! key.

Definition removeItem (key : list N) (b : Browser) : Browser :=
  {| localStorage := delete key (localStorage b);
     location_href := location_href b |}.

Definition setItem (key value : list N) (b : Browser) : Browser :=
  {| localStorage := <[key := value]> (localStorage b);
     location_href := location_href b |}.

Definition set_location_href (href : list N) (b : Browser) : Browser :=
  {| localStorage := localStorage b; location_href := href |}.

(** Truthiness of what [getItem] returns: [null] and [''] are falsy. *)
Definition truthyItem (v : option (list N)) : bool :=
  match v with
  | Some s => JS.truthy s
  | None => false
  end.

(** ** [httpClient.ts]: the two interceptors *)

Module HttpClient.
Import Axios.

(** [interceptors.request.use((config) => ...)] *)
Definition requestInterceptor (b : Browser) (config : Config) : Config :=
  let token := getItem (JS.lit "token") b in
  match token with
  | Some t =>
      if JS.truthy t then
        {| method := method config; url := url config; body := body config;
           Authorization := Some (JS.lit "Bearer " ++ t) |}
      else config
  | None => config
  end.

(** The rejection handler of [interceptors.response.use]. *)
Definition onResponseError (error : Error) (b : Browser) : Browser * Settled :=
  let b' :=
    match response error with
    | Some r =>
        if status r =? 401 then
          set_location_href (JS.lit "/login")
            (removeItem (JS.lit "token") b)
        else b
    | None => b
    end in
  (b', Rejected error).

(** Both handlers of [interceptors.response.use]: a response passes
    through, an error goes to [onResponseError]. *)
Definition responseInterceptor (s : Settled) (b : Browser) : Browser * Settled :=
  match s with
  | Fulfilled r => (b, Fulfilled r)
  | Rejected error => onResponseError error b
  end.

(** What a caller of [httpClient] observes once the transport is done. *)
Definition respond (o : Outcome) (b : Browser) : Browser * Settled :=
  responseInterceptor (settle o) b.

End HttpClient.

(** ** [ProtectedRoute.tsx] *)

Inductive RouteElement :=
| Outlet
| Navigate (to : list N) (replace : bool).

Definition isAuthenticated (b : Browser) : bool :=
  truthyItem (getItem (JS.lit "token") b).

Definition ProtectedRoute (b : Browser) : RouteElement :=
  if isAuthenticated b then Outlet else Navigate (JS.lit "/login") true.

(** ** [Chat.tsx]: the conversation view *)

Module Chat.
Import Axios.

(** The promise chains the component starts: the query function of
    [useQuery('chatHistory', ...)] and the mutation functions of the
    three [useMutation] calls. *)
Inductive Op :=
| ChatHistoryQuery
| SendMessageMutation
| DeleteMessageMutation
| EditMessageMutation.

(** What [useQuery] hands to the component.  [isLoading] is
    [status = loading]; [error] is set exactly when [status = error]. *)
Inductive QueryStatus := loading | error | success.

Record Query := {
  qdata : option (list ChatMessage);
  qstatus : QueryStatus
}.

(** The three [useState] cells, the [chatHistory] query, the browser,
    and the requests handed to the transport: those still in flight
    (keyed by a request number) and the log of all of them, latest
    first.

    [dedupe] is a setting of the query client that no step changes:
    whether a fetch of a query that is already being fetched joins the
    fetch in flight (request deduplication) or runs the query function
    once more.  The properties below hold for either setting. *)
Record World := {
  message : list N;
  editMessageId : option (list N);
  editedContent : list N;
  query : Query;
  dedupe : bool;
  browser : Browser;
  inflight : gmap nat (Op * Config);
  calls : list Config;
  nextId : nat
}.

(** [data: chatHistory] of the [useQuery] result. *)
Definition chatHistory (w : World) : option (list ChatMessage) :=
  qdata (query w).

Definition isLoading (w : World) : bool :=
  match qstatus (query w) with loading => true | _ => false end.

Definition hasError (w : World) : bool :=
  match qstatus (query w) with error => true | _ => false end.

Definition isQuery (op : Op) : bool :=
  match op with ChatHistoryQuery => true | _ => false end.

(** A fetch of the history is in flight. *)
Definition isFetching (w : World) : bool :=
  existsb (fun x => isQuery (fst (snd x))) (map_to_list (inflight w)).

(** *** State setters *)

Definition setMessage (v : list N) (w : World) : World :=
  {| message := v; editMessageId := editMessageId w;
     editedContent := editedContent w; query := query w;
     dedupe := dedupe w;
     browser := browser w; inflight := inflight w; calls := calls w;
     nextId := nextId w |}.

Definition setEditMessageId (v : option (list N)) (w : World) : World :=
  {| message := message w; editMessageId := v;
     editedContent := editedContent w; query := query w;
     dedupe := dedupe w;
     browser := browser w; inflight := inflight w; calls := calls w;
     nextId := nextId w |}.

Definition setEditedContent (v : list N) (w : World) : World :=
  {| message := message w; editMessageId := editMessageId w;
     editedContent := v; query := query w;
     dedupe := dedupe w;
     browser := browser w; inflight := inflight w; calls := calls w;
     nextId := nextId w |}.

Definition setQuery (q : Query) (w : World) : World :=
  {| message := message w; editMessageId := editMessageId w;
     editedContent := editedContent w; query := q;
     dedupe := dedupe w;
     browser := browser w; inflight := inflight w; calls := calls w;
     nextId := nextId w |}.

Definition setBrowser (b : Browser) (w : World) : World :=
  {| message := message w; editMessageId := editMessageId w;
     editedContent := editedContent w; query := query w;
     dedupe := dedupe w;
     browser := b; inflight := inflight w; calls := calls w;
     nextId := nextId w |}.

(** *** Calls through the gateway *)

(** [httpClient.request(config)]: the request interceptor runs, the
    request goes to the transport and its promise is pending. *)
Definition request (op : Op) (config : Config) (w : World) : World :=
  let config' := HttpClient.requestInterceptor (browser w) config in
  {| message := message w; editMessageId := editMessageId w;
     editedContent := editedContent w; query := query w;
     dedupe := dedupe w;
     browser := browser w;
     inflight := <[nextId w := (op, config')]> (inflight w);
     calls := config' :: calls w;
     nextId := S (nextId w) |}.

Definition httpClient_get (op : Op) (path : list N) : World -> World :=
  request op {| method := GET; url := path; body := None;
                Authorization := None |}.

Definition httpClient_post (op : Op) (path content : list N) : World -> World :=
  request op {| method := POST; url := path; body := Some content;
                Authorization := None |}.

Definition httpClient_put (op : Op) (path content : list N) : World -> World :=
  request op {| method := PUT; url := path; body := Some content;
                Authorization := None |}.

Definition httpClient_delete (op : Op) (path : list N) : World -> World :=
  request op {| method := DELETE; url := path; body := None;
                Authorization := None |}.

(** *** The query and the mutations *)

(** [() => httpClient.get('/messages/history').then((res) => res.data)] *)
Definition chatHistoryQueryFn : World -> World :=
  httpClient_get ChatHistoryQuery (JS.lit "/messages/history").

(** A fetch of the query.  With [dedupe] on and a fetch in flight it
    joins that fetch.  Otherwise the query function runs; while there
    is no data yet the status goes (back) to [loading], and data
    already held stays. *)
Definition fetchQuery (w : World) : World :=
  if dedupe w && isFetching w then w
  else
    let q := query w in
    let q' := match qdata q with
              | None => {| qdata := None; qstatus := loading |}
              | Some _ => q
              end in
    chatHistoryQueryFn (setQuery q' w).

(** [refetch: refetchChatHistory] of the [useQuery] result. *)
Definition refetchChatHistory (w : World) : World := fetchQuery w.

(** [queryClient.invalidateQueries('chatHistory')]: the one query under
    that key is mounted, so it is fetched again. *)
Definition invalidateQueries (w : World) : World := fetchQuery w.

(** [(content) => httpClient.post('/messages', { content })] *)
Definition sendMessageMutation_mutate (content : list N) : World -> World :=
  httpClient_post SendMessageMutation (JS.lit "/messages") content.

(** [(messageId) => httpClient.delete(`/messages/${messageId}`)] *)
Definition deleteMessageMutation_mutate (messageId : list N) : World -> World :=
  httpClient_delete DeleteMessageMutation (JS.lit "/messages/" ++ messageId).

(** [({ messageId, content }) =>
      httpClient.put(`/messages/${messageId}`, { content })] *)
Definition editMessageMutation_mutate (messageId content : list N) : World -> World :=
  httpClient_put EditMessageMutation (JS.lit "/messages/" ++ messageId) content.

Definition sendMessageMutation_onSuccess (w : World) : World :=
  invalidateQueries w.

Definition deleteMessageMutation_onSuccess (w : World) : World :=
  invalidateQueries w.

Definition editMessageMutation_onSuccess (w : World) : World :=
  setEditMessageId None (invalidateQueries w).

(** *** Event handlers *)

Definition handleSendMessage (w : World) : World :=
  if JS.truthy (JS.trim (message w)) then
    setMessage [] (sendMessageMutation_mutate (message w) w)
  else w.

Definition handleDeleteMessage (messageId : list N) (w : World) : World :=
  deleteMessageMutation_mutate messageId w.

Definition handleEditMessage (messageId content : list N) (w : World) : World :=
  setEditedContent content (setEditMessageId (Some messageId) w).

Definition handleSaveEdit (messageId : list N) (w : World) : World :=
  if JS.truthy (JS.trim (editedContent w)) then
    editMessageMutation_mutate messageId (editedContent w) w
  else w.

(** *** Settlement of a request *)

(** The promise of [op] is fulfilled with [r]. *)
Definition onFulfilled (op : Op) (r : Response) (w : World) : World :=
  match op with
  | ChatHistoryQuery =>
      setQuery {| qdata := Some (data r); qstatus := success |} w
  | SendMessageMutation => sendMessageMutation_onSuccess w
  | DeleteMessageMutation => deleteMessageMutation_onSuccess w
  | EditMessageMutation => editMessageMutation_onSuccess w
  end.

(** The promise of [op] is rejected: the query keeps its data and
    reports the error; the mutations have no [onError].  A rejection of
    the query function is taken as the failure of the query (no retry,
    as in the query client of [Chat.test.tsx]). *)
Definition onRejected (op : Op) (w : World) : World :=
  match op with
  | ChatHistoryQuery =>
      setQuery {| qdata := qdata (query w); qstatus := error |} w
  | _ => w
  end.

Definition forget (rid : nat) (w : World) : World :=
  {| message := message w; editMessageId := editMessageId w;
     editedContent := editedContent w; query := query w;
     dedupe := dedupe w;
     browser := browser w; inflight := delete rid (inflight w);
     calls := calls w; nextId := nextId w |}.

Definition settleRequest (rid : nat) (o : Outcome) (w : World) : World :=
  match inflight w !! rid with
  | None => w
  | Some (op, _) =>
      let '(b, res) := HttpClient.respond o (browser w) in
      let w' := forget rid (setBrowser b w) in
      match res with
      | Fulfilled r => onFulfilled op r w'
      | Rejected _ => onRejected op w'
      end
  end.

(** *** Events and the step function *)

Inductive Event :=
| InputChange (value : list N)
| EditInputChange (value : list N)
| SendClick
| DeleteClick (messageId : list N)
| EditClick (messageId content : list N)
| SaveClick (messageId : list N)
| Settle (rid : nat) (o : Outcome).

Definition step (w : World) (e : Event) : World :=
  match e with
  | InputChange v => setMessage v w
  | EditInputChange v => setEditedContent v w
  | SendClick => handleSendMessage w
  | DeleteClick messageId => handleDeleteMessage messageId w
  | EditClick messageId content => handleEditMessage messageId content w
  | SaveClick messageId => handleSaveEdit messageId w
  | Settle rid o => settleRequest rid o w
  end.

Definition run (es : list Event) (w : World) : World :=
  fold_left step es w.

(** First render of [<Chat />] in browser [b] under a query client
    with setting [d]: the [useState] initial values, the first fetch of
    the enabled query, and the [refetchChatHistory()] of the effect. *)
Definition mount (d : bool) (b : Browser) : World :=
  refetchChatHistory
    (fetchQuery
       {| message := []; editMessageId := None; editedContent := [];
          query := {| qdata := None; qstatus := loading |};
          dedupe := d;
          browser := b; inflight := ∅; calls := []; nextId := 0 |}).

Inductive reachable : World -> Prop :=
| reachable_mount d b : reachable (mount d b)
| reachable_step w e : reachable w -> reachable (step w e).

(** *** Rendering *)

(** [ChatMessage]: the edit form for the message whose id is in the
    edit slot, its content otherwise. *)
Inductive MessageView :=
| EditMessageForm (editedContent : list N) (onSave : Event)
| MessageContent (chat : ChatMessage).

Definition ChatMessageView (w : World) (chat : ChatMessage) : MessageView :=
  if decide (editMessageId w = Some (JS.toString (id chat))) then
    EditMessageForm (editedContent w) (SaveClick (JS.toString (id chat)))
  else MessageContent chat.

Definition isEditForm (v : MessageView) : bool :=
  match v with EditMessageForm _ _ => true | MessageContent _ => false end.

(** The Edit and Delete buttons of [MessageContent], shown on the
    user's own messages only. *)
Definition onEditClick (chat : ChatMessage) : option Event :=
  if is_from_user chat then
    Some (EditClick (JS.toString (id chat)) (content chat))
  else None.

Definition onDeleteClick (chat : ChatMessage) : option Event :=
  if is_from_user chat then Some (DeleteClick (JS.toString (id chat)))
  else None.

Inductive View :=
| LoadingView
| ErrorView
| ChatView (body : list MessageView) (input : list N).

Definition render (w : World) : View :=
  if isLoading w then LoadingView
  else if hasError w then ErrorView
  else ChatView (map (ChatMessageView w) (default [] (chatHistory w)))
                (message w).

(** *** The edit session read off the two edit cells *)

Inductive EditSession :=
| Idle
| Editing (messageId draftContent : list N).

Definition editSession (w : World) : EditSession :=
  match editMessageId w with
  | None => Idle
  | Some messageId => Editing messageId (editedContent w)
  end.

(** A sequence of begin-edit actions, each with its id and content. *)
Definition beginEdits (begins : list (list N * list N)) : list Event :=
  map (fun b => EditClick (fst b) (snd b)) begins.

(** *** Bookkeeping invariant of the request table *)

Definition opMethod (op : Op) : Method :=
  match op with
  | ChatHistoryQuery => GET
  | SendMessageMutation => POST
  | DeleteMessageMutation => DELETE
  | EditMessageMutation => PUT
  end.

Definition wellTagged (op : Op) (config : Config) : Prop :=
  method config = opMethod op /\
  (op = ChatHistoryQuery -> url config = JS.lit "/messages/history").

Definition tableOk (w : World) : Prop :=
  forall rid op config,
    inflight w !! rid = Some (op, config) ->
    (rid < nextId w)%nat /\ wellTagged op config.

Definition isMutation (op : Op) : bool := negb (isQuery op).

Definition settlesId (rid : nat) (e : Event) : bool :=
  match e with
  | Settle rid' _ => bool_decide (rid' = rid)
  | _ => false
  end.

End Chat.

(** ** Sample worlds *)

Definition sampleBrowser : Browser :=
  {| localStorage := {[ JS.lit "token" := JS.lit "abc" ]};
     location_href := JS.lit "/" |}.

Definition sampleHistory : list ChatMessage :=
  [ {| id := 1; content := JS.lit "Hello!"; reply_to := None;
       is_from_user := true; buttons := [] |};
    {| id := 2; content := JS.lit "Hi there! How can I help?";
       reply_to := Some 1; is_from_user := false;
       buttons := [JS.lit "Option 1"; JS.lit "Option 2"] |} ].

(** The view after the first fetch has brought [sampleHistory]. *)
Definition sampleWorld : Chat.World :=
  Chat.step (Chat.mount true sampleBrowser)
    (Chat.Settle 0 (Axios.Responded {| Axios.status := 200;
                                       Axios.data := sampleHistory |})).

(** Method, path and [content] of the latest request. *)
Definition lastCall (w : Chat.World)
  : option (Axios.Method * list N * option (list N)) :=
  (fun c => (Axios.method c, Axios.url c, Axios.body c)) <$> head (Chat.calls w).

(** ** [Login.tsx] and [SignUp.tsx] *)

Module Pages.
Import Axios.

(** The two [useState] cells of either form. *)
Record Credentials := {
  username : list N;
  password : list N
}.

(** What the transport did with the request of a form.  Of the body of
    an answer the pages read one field, [response.data.access_token],
    which is absent when the answer has no such field. *)
Inductive PageOutcome :=
| PageResponded (status : Z) (access_token : option (list N))
| PageNoResponse.

(** The same outcome as the interceptors see it: they read the status
    only. *)
Definition transport (o : PageOutcome) : Outcome :=
  match o with
  | PageResponded s _ => Responded {| status := s; data := [] |}
  | PageNoResponse => NoResponse
  end.

(** The string [localStorage.setItem] stores for a value: a string as
    it is, [undefined] as the text ["undefined"]. *)
Definition storedString (v : option (list N)) : list N :=
  match v with
  | Some s => s
  | None => JS.lit "undefined"
  end.

(** A page in its browser, with what it has shown through [alert] and
    written with [console.error], latest first. *)
Record Page := {
  env : Browser;
  alerts : list (list N);
  errors : list (list N)
}.

Definition withEnv (b : Browser) (p : Page) : Page :=
  {| env := b; alerts := alerts p; errors := errors p |}.

(** [navigate(to)] of [useNavigate]. *)
Definition navigate (to : list N) (p : Page) : Page :=
  withEnv (set_location_href to (env p)) p.

Definition alert (text : list N) (p : Page) : Page :=
  {| env := env p; alerts := text :: alerts p; errors := errors p |}.

Definition console_error (text : list N) (p : Page) : Page :=
  {| env := env p; alerts := alerts p; errors := text :: errors p |}.

(** The request of [handleLogin]: a POST of [/token] through the
    gateway, with the form data [username], [password] beside it. *)
Definition loginRequest (c : Credentials) (b : Browser)
  : Config * list (list N * list N) :=
  (HttpClient.requestInterceptor b
     {| method := POST; url := JS.lit "/token"; body := None;
        Authorization := None |},
   [(JS.lit "username", username c); (JS.lit "password", password c)]).

(** The request of [handleSignUp]: a POST of [/users] through the
    gateway, with [{ username, password }] beside it. *)
Definition signUpRequest (c : Credentials) (b : Browser)
  : Config * list (list N * list N) :=
  (HttpClient.requestInterceptor b
     {| method := POST; url := JS.lit "/users"; body := None;
        Authorization := None |},
   [(JS.lit "username", username c); (JS.lit "password", password c)]).

(** [handleLogin] from the moment its request is settled: the [try]
    stores the token and goes to [/chat], the [catch] logs. *)
Definition handleLogin (o : PageOutcome) (p : Page) : Page :=
  let '(b, res) := HttpClient.respond (transport o) (env p) in
  match res, o with
  | Fulfilled _, PageResponded _ access_token =>
      navigate (JS.lit "/chat")
        (withEnv (setItem (JS.lit "token") (storedString access_token) b) p)
  | _, _ => console_error (JS.lit "Login failed") (withEnv b p)
  end.

(** [handleSignUp] of [SignUp.tsx] from the moment its request is
    settled. *)
Definition handleSignUp (o : PageOutcome) (p : Page) : Page :=
  let '(b, res) := HttpClient.respond (transport o) (env p) in
  match res with
  | Fulfilled _ => alert (JS.lit "User created successfully") (withEnv b p)
  | Rejected _ => console_error (JS.lit "Sign up error") (withEnv b p)
  end.

(** The [handleSignUp] that goes on to the login page after the
    alert. *)
Definition handleSignUp_navigate (o : PageOutcome) (p : Page) : Page :=
  let '(b, res) := HttpClient.respond (transport o) (env p) in
  match res with
  | Fulfilled _ =>
      navigate (JS.lit "/login")
        (alert (JS.lit "User created successfully") (withEnv b p))
  | Rejected _ => console_error (JS.lit "Sign up error") (withEnv b p)
  end.

End Pages.

(** ** Vocabulary of the further properties *)

(** The header the request interceptor adds in browser [b]. *)
Definition bearer (b : Browser) : option (list N) :=
  match getItem (JS.lit "token") b with
  | Some t => if JS.truthy t then Some (JS.lit "Bearer " ++ t) else None
  | None => None
  end.

(** The browser after the 401 branch of the response interceptor. *)
Definition loggedOut (b : Browser) : Browser :=
  set_location_href (JS.lit "/login") (removeItem (JS.lit "token") b).

(** The four requests of the chat view. *)
Definition knownRequest (c : Axios.Config) : Prop :=
  (Axios.method c = Axios.GET /\ Axios.url c = JS.lit "/messages/history" /\
   Axios.body c = None) \/
  (Axios.method c = Axios.POST /\ Axios.url c = JS.lit "/messages" /\
   exists content, Axios.body c = Some content /\
                   JS.truthy (JS.trim content) = true) \/
  (Axios.method c = Axios.PUT /\
   (exists messageId, Axios.url c = JS.lit "/messages/" ++ messageId) /\
   exists content, Axios.body c = Some content /\
                   JS.truthy (JS.trim content) = true) \/
  (Axios.method c = Axios.DELETE /\
   (exists messageId, Axios.url c = JS.lit "/messages/" ++ messageId) /\
   Axios.body c = None).

(** The draft after a begin-edit with [content] and the changes [vs]
    typed into the edit form. *)
Definition lastDraft (content : list N) (vs : list (list N)) : list N :=
  List.last vs content.

(** The event delivers a response with status 401. *)
Definition is401 (e : Chat.Event) : bool :=
  match e with
  | Chat.Settle _ (Axios.Responded r) => Axios.status r =? 401
  | _ => false
  end.

(** The status of the query and its data go together: [loading] only
    without data, [success] only with data. *)
Definition queryOk (w : Chat.World) : Prop :=
  match Chat.qstatus (Chat.query w) with
  | Chat.loading => Chat.qdata (Chat.query w) = None
  | Chat.success => is_Some (Chat.qdata (Chat.query w))
  | Chat.error => True
  end.

Import Axios Chat.

(** * Properties *)

(** ** The cases of [Chat.test.tsx], replayed on the model *)

Example renders_loading_state_initially :
  render (mount true sampleBrowser) = LoadingView /\
  lastCall (mount true sampleBrowser)
  = Some (GET, JS.lit "/messages/history", None).
Proof. split; reflexivity. Qed.

Example renders_chat_history_after_loading :
  render sampleWorld = ChatView (map MessageContent sampleHistory) [].
Proof. reflexivity. Qed.

Example sends_a_new_message :
  lastCall (run [InputChange (JS.lit "New message"); SendClick] sampleWorld)
  = Some (POST, JS.lit "/messages", Some (JS.lit "New message")).
Proof. reflexivity. Qed.

Example deletes_a_message :
  (sampleHistory !! 0%nat) ≫= onDeleteClick = Some (DeleteClick (JS.lit "1")) /\
  lastCall (step sampleWorld (DeleteClick (JS.lit "1")))
  = Some (DELETE, JS.lit "/messages/1", None).
Proof. split; reflexivity. Qed.

Example edits_a_message :
  let w := run [EditClick (JS.lit "1") (JS.lit "Hello!");
                EditInputChange (JS.lit "Edited message")] sampleWorld in
  render w
  = ChatView [EditMessageForm (JS.lit "Edited message") (SaveClick (JS.lit "1"));
              MessageContent
                {| id := 2; content := JS.lit "Hi there! How can I help?";
                   reply_to := Some 1; is_from_user := false;
                   buttons := [JS.lit "Option 1"; JS.lit "Option 2"] |}] [] /\
  lastCall (step w (SaveClick (JS.lit "1")))
  = Some (PUT, JS.lit "/messages/1", Some (JS.lit "Edited message")).
Proof. split; reflexivity. Qed.

Example renders_error_state_when_fetch_fails :
  render (step (mount true sampleBrowser) (Settle 0 NoResponse)) = ErrorView.
Proof. reflexivity. Qed.

(** ** Strings *)

Example trim_inner_space :
  JS.trim (JS.lit "  hi there ") = JS.lit "hi there".
Proof. reflexivity. Qed.

Example trim_no_break_space : JS.trim [160; 104; 105; 8203; 12288]%N = [104; 105; 8203]%N.
Proof. reflexivity. Qed.

Example toString_samples :
  JS.toString 0 = JS.lit "0" /\ JS.toString 42 = JS.lit "42" /\
  JS.toString (-7) = JS.lit "-7".
Proof. repeat split; reflexivity. Qed.

Lemma trimStart_nil (s : list N) :
  JS.trimStart s = [] <-> forallb JS.isWhiteSpace s = true.
Proof.
  induction s as [|c s IH]; simpl; [done|].
  destruct (JS.isWhiteSpace c); simpl; [exact IH|].
  split; discriminate.
Qed.

Lemma trimStart_head (s : list N) c t :
  JS.trimStart s = c :: t -> JS.isWhiteSpace c = false.
Proof.
  induction s as [|d s IH]; simpl; [discriminate|].
  destruct (JS.isWhiteSpace d) eqn:Hd; [exact IH|].
  intros [= <- _]. exact Hd.
Qed.

(** A string trims to [''] exactly when it is made of white space only. *)
Lemma trim_nil (s : list N) :
  JS.trim s = [] <-> forallb JS.isWhiteSpace s = true.
Proof.
  unfold JS.trim, JS.trimEnd. split.
  - intros H. apply trimStart_nil.
    destruct (JS.trimStart s) as [|c t] eqn:Hs; [done|].
    apply (f_equal (@rev N)) in H. rewrite rev_involutive in H. simpl in H.
    apply trimStart_nil in H. rewrite forallb_app in H. simpl in H.
    apply trimStart_head in Hs. rewrite Hs, andb_false_r in H. discriminate.
  - intros H. apply trimStart_nil in H. rewrite H. reflexivity.
Qed.

Lemma lit_inj (s t : string) : JS.lit s = JS.lit t -> s = t.
Proof.
  unfold JS.lit. intros H.
  rewrite <- (string_of_list_ascii_of_string s),
          <- (string_of_list_ascii_of_string t).
  f_equal. revert H.
  generalize (list_ascii_of_string s) (list_ascii_of_string t).
  intros l. induction l as [|a l IH]; intros [|b m]; simpl; try discriminate; [done|].
  intros [= Hab Hlm]. f_equal; [|by apply IH].
  rewrite <- (ascii_N_embedding a), <- (ascii_N_embedding b). by rewrite Hab.
Qed.

(** Different ids print differently. *)
Lemma toString_inj (m n : Z) : JS.toString m = JS.toString n -> m = n.
Proof.
  unfold JS.toString. intros H. apply lit_inj in H.
  apply (f_equal NilEmpty.int_of_string) in H.
  rewrite !NilEmpty.isi in H. injection H as H.
  by apply DecimalZ.to_int_inj.
Qed.

(** ** The request interceptor only adds the bearer header *)

(** Case analysis on the token the request interceptor reads. *)
Ltac interceptor_cases :=
  unfold HttpClient.requestInterceptor;
  destruct (getItem _ _) as [?t|]; [destruct (JS.truthy _)|]; reflexivity.

(** Case analysis on the guard of [handleSendMessage] and
    [handleSaveEdit]. *)
Ltac guard_cases :=
  unfold handleSendMessage, handleSaveEdit; destruct (JS.truthy _).

Lemma requestInterceptor_method b c :
  method (HttpClient.requestInterceptor b c) = method c.
Proof. interceptor_cases. Qed.

Lemma requestInterceptor_url b c :
  url (HttpClient.requestInterceptor b c) = url c.
Proof. interceptor_cases. Qed.

Lemma requestInterceptor_body b c :
  body (HttpClient.requestInterceptor b c) = body c.
Proof. interceptor_cases. Qed.

Lemma requestInterceptor_bearer b c t :
  getItem (JS.lit "token") b = Some t -> JS.truthy t = true ->
  Authorization (HttpClient.requestInterceptor b c) = Some (JS.lit "Bearer " ++ t).
Proof.
  intros Ht Hne. unfold HttpClient.requestInterceptor. by rewrite Ht, Hne.
Qed.

(** ** Fetching the history *)

Lemma isFetching_true (w : World) :
  isFetching w = true <->
  exists rid get, inflight w !! rid = Some (ChatHistoryQuery, get).
Proof.
  unfold isFetching. rewrite existsb_exists. split.
  - intros ([rid [op get]] & Hin & Hq). simpl in Hq.
    apply list_elem_of_In, elem_of_map_to_list in Hin.
    destruct op; try discriminate. by exists rid, get.
  - intros (rid & get & Hin). exists (rid, (ChatHistoryQuery, get)).
    split; [|done]. by apply list_elem_of_In, elem_of_map_to_list.
Qed.

(** A fetch either joins the one in flight and changes nothing, or
    hands one GET of [/messages/history] to the transport. *)
Lemma fetchQuery_cases (w : World) :
  (dedupe w && isFetching w = true /\ fetchQuery w = w) \/
  (dedupe w && isFetching w = false /\
   exists get,
     inflight (fetchQuery w) = <[nextId w := (ChatHistoryQuery, get)]> (inflight w) /\
     calls (fetchQuery w) = get :: calls w /\
     nextId (fetchQuery w) = S (nextId w) /\
     method get = GET /\ url get = JS.lit "/messages/history" /\
     body get = None).
Proof.
  unfold fetchQuery. destruct (dedupe w && isFetching w); [by left|right].
  split; [done|]. eexists. split; [reflexivity|]. split; [reflexivity|].
  split; [reflexivity|].
  by rewrite requestInterceptor_method, requestInterceptor_url,
    requestInterceptor_body.
Qed.

Lemma fetchQuery_frame (w : World) :
  chatHistory (fetchQuery w) = chatHistory w /\
  message (fetchQuery w) = message w /\
  editMessageId (fetchQuery w) = editMessageId w /\
  editedContent (fetchQuery w) = editedContent w /\
  browser (fetchQuery w) = browser w /\
  dedupe (fetchQuery w) = dedupe w.
Proof.
  unfold fetchQuery, chatHistory.
  destruct (dedupe w && isFetching w); [done|]. simpl.
  destruct (qdata (query w)) eqn:E; rewrite ?E; repeat split.
Qed.

Lemma fetchQuery_nextId (w : World) :
  (nextId w <= nextId (fetchQuery w))%nat.
Proof.
  destruct (fetchQuery_cases w) as [[_ ->]|(_ & get & _ & _ & -> & _)]; lia.
Qed.

Lemma fetchQuery_lookup_stable (w : World) rid x :
  inflight w !! rid = Some x -> (rid < nextId w)%nat ->
  inflight (fetchQuery w) !! rid = Some x.
Proof.
  intros Hin Hlt.
  destruct (fetchQuery_cases w) as [[_ ->]|(_ & get & -> & _)]; [done|].
  by rewrite lookup_insert_ne by lia.
Qed.

(** After a fetch, a GET of the history is in flight: a new one with
    number [nextId w], or the one that was in flight already. *)
Lemma fetchQuery_fetching (w : World) :
  exists rid get,
    inflight (fetchQuery w) !! rid = Some (ChatHistoryQuery, get) /\
    ((dedupe w && isFetching w = true /\ calls (fetchQuery w) = calls w /\
      inflight w !! rid = Some (ChatHistoryQuery, get)) \/
     (dedupe w && isFetching w = false /\ rid = nextId w /\
      calls (fetchQuery w) = get :: calls w /\
      method get = GET /\ url get = JS.lit "/messages/history")).
Proof.
  destruct (fetchQuery_cases w)
    as [[Hj Hw]|(Hn & get & Hi & Hc & _ & Hm & Hu & _)].
  - pose proof Hj as Hj'. apply andb_true_iff in Hj' as [_ Hf].
    apply isFetching_true in Hf as (rid & get & Hin).
    exists rid, get. rewrite Hw. split; [done|]. by left.
  - exists (nextId w), get. rewrite Hi, lookup_insert_eq.
    split; [done|]. by right.
Qed.

(** ** The handlers, one equation each *)

Lemma handleSendMessage_blank (w : World) :
  JS.trim (message w) = [] -> handleSendMessage w = w.
Proof. intros H. unfold handleSendMessage. by rewrite H. Qed.

Lemma handleSendMessage_send (w : World) :
  JS.truthy (JS.trim (message w)) = true ->
  handleSendMessage w =
  setMessage [] (sendMessageMutation_mutate (message w) w).
Proof. intros H. unfold handleSendMessage. by rewrite H. Qed.

Lemma handleSaveEdit_blank (messageId : list N) (w : World) :
  JS.trim (editedContent w) = [] -> handleSaveEdit messageId w = w.
Proof. intros H. unfold handleSaveEdit. by rewrite H. Qed.

Lemma handleSaveEdit_save (messageId : list N) (w : World) :
  JS.truthy (JS.trim (editedContent w)) = true ->
  handleSaveEdit messageId w =
  editMessageMutation_mutate messageId (editedContent w) w.
Proof. intros H. unfold handleSaveEdit. by rewrite H. Qed.

(** ** Empty-content guard *)

(** C3: a text that trims to the empty string consists of white space
    only, and when it is the text of the message input, or the draft of
    the edit form, clicking Send, respectively Save for any message,
    leaves the whole world as it was: no request is handed to the
    transport, nothing is put in flight, no state cell changes and no
    error is raised. *)
Theorem empty_content_guard (w : World) (s : list N) :
  JS.trim s = [] ->
  forallb JS.isWhiteSpace s = true /\
  step (setMessage s w) SendClick = setMessage s w /\
  calls (step (setMessage s w) SendClick) = calls w /\
  inflight (step (setMessage s w) SendClick) = inflight w /\
  (forall messageId,
     step (setEditedContent s w) (SaveClick messageId) = setEditedContent s w /\
     calls (step (setEditedContent s w) (SaveClick messageId)) = calls w /\
     inflight (step (setEditedContent s w) (SaveClick messageId)) = inflight w).
Proof.
  intros H. split; [by apply trim_nil|]. simpl.
  rewrite handleSendMessage_blank by exact H.
  repeat split; try reflexivity.
  all: rewrite handleSaveEdit_blank by exact H; reflexivity.
Qed.

Lemma empty_content_guard_witness :
  JS.trim (JS.lit "   ") = [] /\
  step (setMessage (JS.lit "   ") sampleWorld) SendClick =
    setMessage (JS.lit "   ") sampleWorld /\
  step (setEditedContent [9; 160; 32]%N sampleWorld) (SaveClick (JS.lit "1")) =
    setEditedContent [9; 160; 32]%N sampleWorld.
Proof.
  split; [reflexivity|]. split.
  - apply (empty_content_guard sampleWorld (JS.lit "   ")). reflexivity.
  - apply (empty_content_guard sampleWorld [9; 160; 32]%N). reflexivity.
Defined.

(** ** What a send puts on the wire *)

(** C6, as stated, fails: with [" hi "] in the input the body of the
    POST is [" hi "], not the trimmed ["hi"]. *)
Lemma send_body_is_not_trimmed :
  let w := setMessage (JS.lit " hi ") sampleWorld in
  JS.truthy (JS.trim (message w)) = true /\
  exists config,
    head (calls (step w SendClick)) = Some config /\
    method config = POST /\
    url config = JS.lit "/messages" /\
    body config = Some (JS.lit " hi ") /\
    body config <> Some (JS.trim (message w)).
Proof.
  split; [reflexivity|].
  eexists. split; [reflexivity|].
  do 3 (split; [reflexivity|]).
  intros H. vm_compute in H. discriminate H.
Qed.

(** C6, amended: a send whose input does not trim to the empty string
    issues exactly one request, a POST to [/messages] whose [content] is
    the input as typed; the trim only decides whether to send.  The body
    is the trimmed input just when trimming does not change the input. *)
Theorem send_body_is_input (w : World) :
  JS.truthy (JS.trim (message w)) = true ->
  exists config,
    calls (step w SendClick) = config :: calls w /\
    inflight (step w SendClick) !! nextId w = Some (SendMessageMutation, config) /\
    method config = POST /\
    url config = JS.lit "/messages" /\
    body config = Some (message w) /\
    (body config = Some (JS.trim (message w)) <-> JS.trim (message w) = message w).
Proof.
  intros H. simpl. rewrite handleSendMessage_send by exact H.
  eexists. split; [reflexivity|]. split; [apply lookup_insert_eq|].
  rewrite requestInterceptor_body, requestInterceptor_method,
    requestInterceptor_url. simpl. repeat split; congruence.
Qed.

Lemma send_body_is_input_witness :
  let w := setMessage (JS.lit " hi ") sampleWorld in
  exists config,
    calls (step w SendClick) = config :: calls w /\
    body config = Some (JS.lit " hi ").
Proof.
  intros w.
  destruct (send_body_is_input w) as (config & Hc & _ & _ & _ & Hb & _);
    [reflexivity|].
  exists config. split; [exact Hc | exact Hb].
Defined.

(** ** The input is cleared at submit time *)

(** C7: a submit whose input does not trim to the empty string leaves
    the input empty as soon as the handler returns, while the POST is
    still in flight; whatever way that POST settles afterwards (any
    response, or none), the input stays empty. *)
Theorem input_cleared_on_submit (w : World) :
  JS.truthy (JS.trim (message w)) = true ->
  let w1 := step w SendClick in
  message w1 = [] /\
  (exists config,
     inflight w1 !! nextId w = Some (SendMessageMutation, config) /\
     method config = POST) /\
  (forall o, message (step w1 (Settle (nextId w) o)) = []).
Proof.
  intros H w1. subst w1. simpl.
  rewrite handleSendMessage_send by exact H.
  split; [reflexivity|]. split.
  - eexists. split; [apply lookup_insert_eq|].
    by rewrite requestInterceptor_method.
  - intros o. unfold settleRequest. simpl. rewrite lookup_insert_eq.
    destruct (HttpClient.respond o (browser w)) as [b [r|e]]; [|reflexivity].
    apply fetchQuery_frame.
Qed.

Lemma input_cleared_on_submit_witness :
  let w := setMessage (JS.lit "New message") sampleWorld in
  message (step w SendClick) = [] /\
  message (step (step w SendClick) (Settle (nextId w) NoResponse)) = [].
Proof.
  intros w.
  destruct (input_cleared_on_submit w) as (H1 & _ & H3); [reflexivity|].
  split; [exact H1 | exact (H3 NoResponse)].
Defined.

(** ** Beginning an edit *)

(** C10: beginning an edit touches the two edit cells and nothing else.
    For any id and content, [handleEditMessage] puts the id in the edit
    slot and the content in the draft, while the request log, the
    requests in flight, the cached history with its status, the message
    input and the browser stay as they were.  The Edit button shown on a
    message is bound to that handler with the printed id and the current
    content of that message. *)
Theorem begin_edit_is_local (w : World) (chat : ChatMessage) (e : Event) :
  onEditClick chat = Some e ->
  e = EditClick (JS.toString (id chat)) (content chat) /\
  (let w1 := step w e in
   editMessageId w1 = Some (JS.toString (id chat)) /\
   editedContent w1 = content chat /\
   calls w1 = calls w /\ inflight w1 = inflight w /\
   chatHistory w1 = chatHistory w /\ query w1 = query w /\
   message w1 = message w /\ browser w1 = browser w) /\
  (forall messageId draft,
     let w1 := step w (EditClick messageId draft) in
     editMessageId w1 = Some messageId /\
     editedContent w1 = draft /\
     calls w1 = calls w /\ inflight w1 = inflight w /\
     chatHistory w1 = chatHistory w /\ query w1 = query w /\
     message w1 = message w /\ browser w1 = browser w).
Proof.
  unfold onEditClick. destruct (is_from_user chat); [|discriminate].
  intros [= <-]. repeat split.
Qed.

Lemma begin_edit_is_local_witness :
  let chat := {| id := 1; content := JS.lit "Hello!"; reply_to := None;
                 is_from_user := true; buttons := [] |} in
  let e := EditClick (JS.lit "1") (JS.lit "Hello!") in
  editSession (step sampleWorld e) = Editing (JS.lit "1") (JS.lit "Hello!") /\
  calls (step sampleWorld e) = calls sampleWorld.
Proof.
  intros chat e.
  destruct (begin_edit_is_local sampleWorld chat e) as (_ & H & _);
    [reflexivity|].
  destruct H as (H1 & H2 & H3 & _).
  split; [|exact H3]. unfold editSession. rewrite H1, H2. reflexivity.
Defined.

(** ** Single active edit *)

Lemma run_app (es fs : list Event) (w : World) :
  run (es ++ fs) w = run fs (run es w).
Proof. unfold run. apply fold_left_app. Qed.

Lemma editForm_slot (w : World) (chat : ChatMessage) :
  isEditForm (ChatMessageView w chat) = true ->
  editMessageId w = Some (JS.toString (id chat)).
Proof.
  unfold ChatMessageView. case_decide as H; [done|]. discriminate.
Qed.

(** At most one message of a history with distinct ids is drawn as the
    edit form, whatever the world. *)
Lemma one_edit_form (w : World) (chats : list ChatMessage) i j ci cj :
  NoDup (map id chats) ->
  chats !! i = Some ci -> chats !! j = Some cj ->
  isEditForm (ChatMessageView w ci) = true ->
  isEditForm (ChatMessageView w cj) = true ->
  i = j.
Proof.
  intros Hnd Hi Hj Fi Fj.
  apply editForm_slot in Fi, Fj. rewrite Fi in Fj.
  injection Fj as Fj. apply toString_inj in Fj.
  eapply NoDup_lookup; [exact Hnd| |].
  - rewrite list_lookup_fmap, Hi. reflexivity.
  - rewrite list_lookup_fmap, Hj. simpl. by rewrite Fj.
Qed.

(** C4: after any sequence of begin-edit actions, from any world, at
    most one message of a history with distinct ids is drawn in edit
    mode.  A further begin-edit on a message [B] gives the session
    [Editing B contentB] in one step without any request, and the world
    it gives does not depend on which message was being edited before or
    on the draft typed for it; so a sequence of begin-edits ends in the
    session of its last action. *)
Theorem single_active_edit (w : World) (begins : list (list N * list N)) :
  let w' := run (beginEdits begins) w in
  (forall (chats : list ChatMessage) i j ci cj,
     NoDup (map id chats) ->
     chats !! i = Some ci -> chats !! j = Some cj ->
     isEditForm (ChatMessageView w' ci) = true ->
     isEditForm (ChatMessageView w' cj) = true ->
     i = j) /\
  (forall B contentB,
     editSession (step w' (EditClick B contentB)) = Editing B contentB /\
     calls (step w' (EditClick B contentB)) = calls w' /\
     inflight (step w' (EditClick B contentB)) = inflight w' /\
     forall A draftA,
       step (setEditedContent draftA (setEditMessageId (Some A) w'))
            (EditClick B contentB)
       = step w' (EditClick B contentB)) /\
  (forall B contentB,
     editSession (run (beginEdits (begins ++ [(B, contentB)])) w)
     = Editing B contentB).
Proof.
  intros w'. split; [|split].
  - intros chats i j ci cj. apply one_edit_form.
  - intros B contentB. repeat split.
  - intros B contentB. unfold beginEdits. rewrite map_app, run_app.
    reflexivity.
Qed.

Lemma single_active_edit_witness :
  let begins := [(JS.lit "2", JS.lit "x"); (JS.lit "1", JS.lit "Hello!")] in
  let w' := run (beginEdits begins) sampleWorld in
  NoDup (map id sampleHistory) /\
  (forall i ci, sampleHistory !! i = Some ci ->
     isEditForm (ChatMessageView w' ci) = true -> i = 0%nat) /\
  editSession w' = Editing (JS.lit "1") (JS.lit "Hello!").
Proof.
  intros begins w'.
  assert (Hnd : NoDup (map id sampleHistory)).
  { apply (bool_decide_unpack _). reflexivity. }
  split; [exact Hnd|]. split; [|reflexivity].
  intros i ci Hi Fi.
  destruct (single_active_edit sampleWorld begins) as (H & _ & _).
  eapply (H sampleHistory i 0%nat ci); [exact Hnd | exact Hi | reflexivity | exact Fi |].
  reflexivity.
Defined.

(** ** Route guard *)

Lemma isAuthenticated_token (b : Browser) :
  isAuthenticated b = true <->
  exists t, getItem (JS.lit "token") b = Some t /\ t <> [].
Proof.
  unfold isAuthenticated, truthyItem.
  destruct (getItem (JS.lit "token") b) as [[|c t]|]; simpl.
  - split; [discriminate|]. intros (t & [= <-] & H). by destruct H.
  - split; [|done]. intros _. by exists (c :: t).
  - split; [discriminate|]. intros (t & H & _). discriminate.
Qed.

(** C8: the guard lets the conversation view through exactly when
    [isAuthenticated] holds, that is when [localStorage] has a non-empty
    string under [token], and otherwise redirects to [/login]
    (replacing the history entry).  Two browsers with the same stored
    token get the same decision.  The guard is a function of the browser
    alone: it has no access to the transport. *)
Theorem route_guard (b : Browser) :
  (ProtectedRoute b = Outlet <-> isAuthenticated b = true) /\
  (isAuthenticated b = false ->
   ProtectedRoute b = Navigate (JS.lit "/login") true) /\
  (isAuthenticated b = true <->
   exists t, getItem (JS.lit "token") b = Some t /\ t <> []) /\
  (forall b',
     getItem (JS.lit "token") b' = getItem (JS.lit "token") b ->
     ProtectedRoute b' = ProtectedRoute b).
Proof.
  split; [|split; [|split]].
  - unfold ProtectedRoute. destruct (isAuthenticated b); split; done.
  - unfold ProtectedRoute. by intros ->.
  - apply isAuthenticated_token.
  - intros b' H. unfold ProtectedRoute, isAuthenticated. by rewrite H.
Qed.

Lemma route_guard_witness :
  ProtectedRoute sampleBrowser = Outlet /\
  ProtectedRoute (removeItem (JS.lit "token") sampleBrowser)
  = Navigate (JS.lit "/login") true.
Proof.
  split.
  - apply (route_guard sampleBrowser). reflexivity.
  - apply (route_guard (removeItem (JS.lit "token") sampleBrowser)).
    reflexivity.
Defined.

(** An empty string stored under [token] counts as no token. *)
Example route_guard_empty_token :
  ProtectedRoute (setItem (JS.lit "token") [] sampleBrowser)
  = Navigate (JS.lit "/login") true.
Proof. reflexivity. Qed.

(** ** The response interceptor *)

Lemma respond_401 (b : Browser) (r : Response) :
  status r = 401 ->
  HttpClient.respond (Responded r) b =
  (set_location_href (JS.lit "/login") (removeItem (JS.lit "token") b),
   Rejected {| response := Some r |}).
Proof.
  intros H. unfold HttpClient.respond, settle, validateStatus.
  rewrite H. simpl. unfold HttpClient.onResponseError. simpl.
  by rewrite H.
Qed.

Lemma respond_NoResponse (b : Browser) :
  HttpClient.respond NoResponse b = (b, Rejected {| response := None |}).
Proof. reflexivity. Qed.

Lemma settleRequest_rejected (w : World) rid op config o b e :
  inflight w !! rid = Some (op, config) ->
  HttpClient.respond o (browser w) = (b, Rejected e) ->
  settleRequest rid o w = onRejected op (forget rid (setBrowser b w)).
Proof. intros Hin Hr. unfold settleRequest. by rewrite Hin, Hr. Qed.

Lemma settleRequest_fulfilled (w : World) rid op config o b r :
  inflight w !! rid = Some (op, config) ->
  HttpClient.respond o (browser w) = (b, Fulfilled r) ->
  settleRequest rid o w = onFulfilled op r (forget rid (setBrowser b w)).
Proof. intros Hin Hr. unfold settleRequest. by rewrite Hin, Hr. Qed.

(** C2: a response with status 401 makes the gateway remove [token]
    from [localStorage], set [window.location.href] to [/login], and
    reject the call with the error that carries that response.  In the
    chat view this holds for a request of any of the four operations: the
    token is gone, the location is [/login], the request is no longer
    pending and nothing a success would do happens (no refetch, the
    cached history and the edit slot are untouched); a failed history
    query reports its error. *)
Theorem unauthorized_invalidation (b : Browser) (r : Response) :
  status r = 401 ->
  (let '(b', res) := HttpClient.respond (Responded r) b in
   getItem (JS.lit "token") b' = None /\
   location_href b' = JS.lit "/login" /\
   res = Rejected {| response := Some r |}) /\
  (forall (w : World) rid op config,
     inflight w !! rid = Some (op, config) ->
     let w' := step w (Settle rid (Responded r)) in
     getItem (JS.lit "token") (browser w') = None /\
     location_href (browser w') = JS.lit "/login" /\
     inflight w' !! rid = None /\
     calls w' = calls w /\
     chatHistory w' = chatHistory w /\
     editMessageId w' = editMessageId w /\
     (op = ChatHistoryQuery -> hasError w' = true)).
Proof.
  intros H. split.
  - rewrite respond_401 by exact H.
    split; [apply lookup_delete_eq|]. split; reflexivity.
  - intros w rid op config Hin w'. subst w'. simpl.
    erewrite settleRequest_rejected; [|exact Hin|by apply respond_401].
    destruct op; simpl; unfold getItem; simpl;
      rewrite !lookup_delete_eq; repeat split; discriminate.
Qed.

Lemma unauthorized_invalidation_witness :
  let r := {| status := 401; data := [] |} in
  let w := step (setMessage (JS.lit "hello") sampleWorld) SendClick in
  let w' := step w (Settle 1 (Responded r)) in
  getItem (JS.lit "token") (browser w') = None /\
  location_href (browser w') = JS.lit "/login" /\
  chatHistory w' = Some sampleHistory.
Proof.
  intros r w w'.
  destruct (unauthorized_invalidation (browser w) r) as [_ H]; [reflexivity|].
  destruct (H w 1%nat SendMessageMutation
              {| method := POST; url := JS.lit "/messages";
                 body := Some (JS.lit "hello");
                 Authorization := Some (JS.lit "Bearer abc") |})
    as (H1 & H2 & _ & _ & H5 & _); [reflexivity|].
  split; [exact H1|]. split; [exact H2|]. exact H5.
Defined.

(** ** Transport failures *)

(** C9: when no response arrives, the gateway rejects the call with an
    error that has no response and leaves the browser as it was: the
    stored token and the location are unchanged.  In the chat view this
    holds for a request of any operation; nothing a success would do
    happens, and a failed history query reports its error. *)
Theorem network_error_keeps_session (b : Browser) :
  HttpClient.respond NoResponse b = (b, Rejected {| response := None |}) /\
  (forall (w : World) rid op config,
     inflight w !! rid = Some (op, config) ->
     let w' := step w (Settle rid NoResponse) in
     browser w' = browser w /\
     getItem (JS.lit "token") (browser w') = getItem (JS.lit "token") (browser w) /\
     location_href (browser w') = location_href (browser w) /\
     inflight w' !! rid = None /\
     calls w' = calls w /\
     chatHistory w' = chatHistory w /\
     editMessageId w' = editMessageId w /\
     (op = ChatHistoryQuery -> hasError w' = true)).
Proof.
  split; [reflexivity|].
  intros w rid op config Hin w'. subst w'. simpl.
  erewrite settleRequest_rejected; [|exact Hin|apply respond_NoResponse].
  destruct op; simpl; rewrite !lookup_delete_eq; repeat split; discriminate.
Qed.

Lemma network_error_keeps_session_witness :
  let w := step (setMessage (JS.lit "hello") sampleWorld) SendClick in
  let w' := step w (Settle 1 NoResponse) in
  getItem (JS.lit "token") (browser w') = Some (JS.lit "abc") /\
  location_href (browser w') = JS.lit "/".
Proof.
  intros w w'.
  destruct (network_error_keeps_session (browser w)) as [_ H].
  destruct (H w 1%nat SendMessageMutation
              {| method := POST; url := JS.lit "/messages";
                 body := Some (JS.lit "hello");
                 Authorization := Some (JS.lit "Bearer abc") |})
    as (H1 & _); [reflexivity|].
  fold w' in H1. rewrite H1. split; reflexivity.
Defined.


(** ** Requests in flight *)

(** A step never hands out a smaller request number. *)
Lemma step_nextId (w : World) (e : Event) :
  (nextId w <= nextId (step w e))%nat.
Proof.
  destruct e; simpl; try lia.
  - guard_cases; simpl; lia.
  - guard_cases; simpl; lia.
  - unfold settleRequest. destruct (inflight w !! rid) as [[op c]|]; [|lia].
    destruct (HttpClient.respond o (browser w)) as [b res].
    pose proof (fetchQuery_nextId (forget rid (setBrowser b w))) as Hf.
    destruct res as [r|err]; destruct op; solve [exact Hf | simpl; lia].
Qed.

(** A request in flight stays in flight, with its tag and configuration,
    until the event that settles it. *)
Lemma step_inflight_stable (w : World) (e : Event) rid x :
  inflight w !! rid = Some x -> (rid < nextId w)%nat ->
  settlesId rid e = false ->
  inflight (step w e) !! rid = Some x.
Proof.
  intros Hin Hlt Hne.
  destruct e; simpl; try exact Hin.
  - guard_cases; simpl; [|exact Hin].
    rewrite lookup_insert_ne by lia. exact Hin.
  - rewrite lookup_insert_ne by lia. exact Hin.
  - guard_cases; simpl; [|exact Hin].
    rewrite lookup_insert_ne by lia. exact Hin.
  - simpl in Hne. apply bool_decide_eq_false in Hne.
    unfold settleRequest. destruct (inflight w !! rid0) as [[op c]|]; [|exact Hin].
    destruct (HttpClient.respond o (browser w)) as [b res].
    assert (Hf : inflight (forget rid0 (setBrowser b w)) !! rid = Some x).
    { simpl. by rewrite lookup_delete_ne. }
    pose proof (fetchQuery_lookup_stable _ rid x Hf Hlt) as Hq.
    destruct res as [r|err]; destruct op; solve [exact Hq | exact Hf].
Qed.

Lemma run_inflight_stable (es : list Event) (w : World) rid x :
  inflight w !! rid = Some x -> (rid < nextId w)%nat ->
  Forall (fun e => settlesId rid e = false) es ->
  inflight (run es w) !! rid = Some x /\ (rid < nextId (run es w))%nat.
Proof.
  revert w. induction es as [|e es IH]; intros w Hin Hlt Hes; [done|].
  apply Forall_cons in Hes as [He Hes]. simpl. apply IH; [| |exact Hes].
  - by apply step_inflight_stable.
  - pose proof (step_nextId w e). lia.
Qed.

(** Every request in flight of a reachable world has a number below
    [nextId] and a configuration that matches its tag. *)
Lemma request_tableOk (w : World) op config :
  tableOk w -> wellTagged op config ->
  tableOk (request op config w).
Proof.
  intros Hw Ht rid op' config' Hin. simpl in Hin.
  destruct (decide (rid = nextId w)) as [->|Hne].
  - rewrite lookup_insert_eq in Hin. injection Hin as <- <-.
    split; [simpl; lia|]. destruct Ht as [Hm Hu].
    split; [by rewrite requestInterceptor_method|].
    intros E. rewrite requestInterceptor_url. by apply Hu.
  - rewrite lookup_insert_ne in Hin by done.
    destruct (Hw _ _ _ Hin). split; [simpl; lia|done].
Qed.

Lemma forget_tableOk (w : World) rid :
  tableOk w -> tableOk (forget rid w).
Proof.
  intros Hw rid' op c Hin. simpl in Hin.
  apply lookup_delete_Some in Hin as [_ Hin]. by apply Hw.
Qed.

Lemma fetchQuery_tableOk (w : World) :
  tableOk w -> tableOk (fetchQuery w).
Proof.
  intros Hw. unfold fetchQuery.
  destruct (dedupe w && isFetching w); [exact Hw|].
  unfold chatHistoryQueryFn, httpClient_get.
  apply request_tableOk; [exact Hw|done].
Qed.

Lemma step_tableOk (w : World) (e : Event) :
  tableOk w -> tableOk (step w e).
Proof.
  intros Hw. destruct e; simpl; try exact Hw.
  - guard_cases; [|exact Hw].
    apply (request_tableOk w SendMessageMutation); [exact Hw|].
    split; [reflexivity|discriminate].
  - apply request_tableOk; [exact Hw|]. split; [reflexivity|discriminate].
  - guard_cases; [|exact Hw].
    apply request_tableOk; [exact Hw|]. split; [reflexivity|discriminate].
  - unfold settleRequest. destruct (inflight w !! rid) as [[op c]|]; [|exact Hw].
    destruct (HttpClient.respond o (browser w)) as [b res].
    assert (Hf : tableOk (forget rid (setBrowser b w))).
    { apply forget_tableOk. exact Hw. }
    destruct res as [r|err]; destruct op; simpl; try exact Hf;
      exact (fetchQuery_tableOk _ Hf).
Qed.

Lemma reachable_tableOk (w : World) : reachable w -> tableOk w.
Proof.
  induction 1 as [d b|w e _ IH].
  - do 2 apply fetchQuery_tableOk. intros rid op c Hin. simpl in Hin.
    by rewrite lookup_empty in Hin.
  - by apply step_tableOk.
Qed.

Lemma reachable_run (es : list Event) (w : World) :
  reachable w -> reachable (run es w).
Proof.
  revert w. induction es as [|e es IH]; intros w Hw; [done|].
  simpl. apply IH. by constructor.
Qed.

(** ** Settling a request *)

Lemma respond_fulfilled (o : Outcome) (r : Response) (b : Browser) :
  settle o = Fulfilled r -> HttpClient.respond o b = (b, Fulfilled r).
Proof. intros H. unfold HttpClient.respond. by rewrite H. Qed.

Lemma respond_rejected (o : Outcome) (err : Error) (b : Browser) :
  settle o = Rejected err ->
  exists b', HttpClient.respond o b = (b', Rejected err).
Proof.
  intros H. unfold HttpClient.respond. rewrite H. simpl.
  unfold HttpClient.onResponseError. by eexists.
Qed.

Lemma settle_fulfilled_status (o : Outcome) (r : Response) :
  settle o = Fulfilled r <->
  o = Responded r /\ validateStatus (status r) = true.
Proof.
  destruct o as [r'|]; simpl; [|split; [discriminate|intros [? _]; discriminate]].
  destruct (validateStatus (status r')) eqn:E.
  - split; [by intros [= ->]|]. by intros [[= ->] _].
  - split; [discriminate|]. intros [[= ->] H]. congruence.
Qed.

Lemma isFetching_forget (w : World) rid op config b :
  inflight w !! rid = Some (op, config) -> isMutation op = true ->
  isFetching (forget rid (setBrowser b w)) = isFetching w.
Proof.
  intros Hin Hm. apply eq_true_iff_eq. rewrite !isFetching_true. simpl.
  split; intros (rid' & get & H); exists rid', get.
  - by apply lookup_delete_Some in H as [_ H].
  - apply lookup_delete_Some. split; [|done].
    intros <-. rewrite Hin in H. injection H as -> _. discriminate.
Qed.

(** A mutation that succeeds patches nothing and fetches the history:
    afterwards a GET of the history is in flight, the one just issued or
    the one it joined. *)
Lemma mutation_success (w : World) rid op config o r :
  tableOk w ->
  inflight w !! rid = Some (op, config) -> isMutation op = true ->
  settle o = Fulfilled r ->
  let w1 := step w (Settle rid o) in
  chatHistory w1 = chatHistory w /\
  editMessageId w1 =
    match op with EditMessageMutation => None | _ => editMessageId w end /\
  editedContent w1 = editedContent w /\
  message w1 = message w /\
  exists rid' get,
    inflight w1 !! rid' = Some (ChatHistoryQuery, get) /\
    (rid' < nextId w1)%nat /\
    method get = GET /\ url get = JS.lit "/messages/history" /\
    ((dedupe w && isFetching w = true /\ calls w1 = calls w) \/
     (dedupe w && isFetching w = false /\ rid' = nextId w /\
      calls w1 = get :: calls w)).
Proof.
  intros Hok Hin Hm Ho w1.
  assert (Hok1 : tableOk w1) by by apply step_tableOk.
  subst w1. revert Hok1. simpl.
  erewrite settleRequest_fulfilled; [|exact Hin|by apply respond_fulfilled].
  set (w0 := forget rid (setBrowser (browser w) w)).
  destruct (fetchQuery_frame w0) as (Hh & Hmsg & Hid & Hed & _).
  destruct (fetchQuery_fetching w0) as (rid' & get & Hl & Hcase).
  assert (Hfe : isFetching w0 = isFetching w)
    by exact (isFetching_forget w rid op config (browser w) Hin Hm).
  rewrite Hfe in Hcase.
  change (dedupe w0) with (dedupe w) in Hcase.
  change (calls w0) with (calls w) in Hcase.
  change (nextId w0) with (nextId w) in Hcase.
  intros Hok1.
  assert (Hgoal :
    exists rid' get,
      inflight (fetchQuery w0) !! rid' = Some (ChatHistoryQuery, get) /\
      (rid' < nextId (fetchQuery w0))%nat /\
      method get = GET /\ url get = JS.lit "/messages/history" /\
      ((dedupe w && isFetching w = true /\ calls (fetchQuery w0) = calls w) \/
       (dedupe w && isFetching w = false /\ rid' = nextId w /\
        calls (fetchQuery w0) = get :: calls w))).
  { exists rid', get. split; [exact Hl|].
    assert (Ht : tableOk (fetchQuery w0)).
    { apply fetchQuery_tableOk, forget_tableOk. exact Hok. }
    destruct (Ht _ _ _ Hl) as [Hlt [Hmeth Hurl]].
    split; [exact Hlt|]. split; [exact Hmeth|]. split; [by apply Hurl|].
    destruct Hcase as [(Hj & Hc & _)|(Hn & -> & Hc & _)]; [by left|by right]. }
  destruct op; [discriminate| | |]; simpl;
    unfold sendMessageMutation_onSuccess, deleteMessageMutation_onSuccess,
      editMessageMutation_onSuccess, invalidateQueries;
    (split; [exact Hh|]);
    (split; [try exact Hid; reflexivity|]);
    (split; [exact Hed|]); (split; [exact Hmsg|]); exact Hgoal.
Qed.

(** The cached history changes only when a history query is fulfilled,
    and then it becomes the body of that response. *)
Lemma cache_write (w : World) (e : Event) :
  chatHistory (step w e) = chatHistory w \/
  exists rid r get,
    e = Settle rid (Responded r) /\
    inflight w !! rid = Some (ChatHistoryQuery, get) /\
    validateStatus (status r) = true /\
    chatHistory (step w e) = Some (data r).
Proof.
  destruct e; simpl; try (left; reflexivity).
  - left. by guard_cases.
  - left. by guard_cases.
  - unfold settleRequest.
    destruct (inflight w !! rid) as [[op c]|] eqn:Hin; [|by left].
    destruct (settle o) as [r|err] eqn:Ho.
    + rewrite (respond_fulfilled _ _ _ Ho).
      apply settle_fulfilled_status in Ho as [-> Hv].
      destruct op; simpl.
      * right. by exists rid, r, c.
      * left. apply (fetchQuery_frame (forget rid (setBrowser (browser w) w))).
      * left. apply (fetchQuery_frame (forget rid (setBrowser (browser w) w))).
      * left. apply (fetchQuery_frame (forget rid (setBrowser (browser w) w))).
    + destruct (respond_rejected _ _ (browser w) Ho) as [b' ->].
      left. by destruct op.
Qed.

Lemma query_success (w : World) rid config o r :
  inflight w !! rid = Some (ChatHistoryQuery, config) ->
  settle o = Fulfilled r ->
  chatHistory (step w (Settle rid o)) = Some (data r) /\
  isLoading (step w (Settle rid o)) = false /\
  hasError (step w (Settle rid o)) = false.
Proof.
  intros Hin Ho. simpl.
  erewrite settleRequest_fulfilled; [|exact Hin|by apply respond_fulfilled].
  done.
Qed.

(** ** Refetch wins *)

(** C1: in a reachable world, when a send, edit or delete request is
    fulfilled the handler leaves the cached history as it is and fetches
    it: a GET of [/messages/history] is then in flight (a new one, or the
    one already in flight when the query client deduplicates).  Whatever
    happens in between, once that GET is fulfilled the cached history is
    the list the server returned, in the order returned.  At every step
    of a reachable world the cached history either stays or becomes the
    whole body of a fulfilled GET of [/messages/history]: no step writes
    a history put together locally. *)
Theorem refetch_wins (w : World) rid op config o r :
  reachable w ->
  inflight w !! rid = Some (op, config) ->
  isMutation op = true ->
  settle o = Fulfilled r ->
  let w1 := step w (Settle rid o) in
  chatHistory w1 = chatHistory w /\
  (exists rid' get,
     inflight w1 !! rid' = Some (ChatHistoryQuery, get) /\
     method get = GET /\ url get = JS.lit "/messages/history" /\
     (dedupe w && isFetching w = false ->
      rid' = nextId w /\ calls w1 = get :: calls w) /\
     (dedupe w && isFetching w = true -> calls w1 = calls w) /\
     forall es o' r',
       Forall (fun e => settlesId rid' e = false) es ->
       settle o' = Fulfilled r' ->
       chatHistory (step (run es w1) (Settle rid' o')) = Some (data r')) /\
  (forall w' e,
     reachable w' ->
     chatHistory (step w' e) = chatHistory w' \/
     exists rid' r' get,
       e = Settle rid' (Responded r') /\
       inflight w' !! rid' = Some (ChatHistoryQuery, get) /\
       method get = GET /\ url get = JS.lit "/messages/history" /\
       validateStatus (status r') = true /\
       chatHistory (step w' e) = Some (data r')).
Proof.
  intros Hr Hin Hm Ho w1.
  destruct (mutation_success w rid op config o r
              (reachable_tableOk w Hr) Hin Hm Ho)
    as (Hh & _ & _ & _ & rid' & get & Hl & Hlt & Hg & Hu & Hcase).
  fold w1 in Hh, Hl, Hlt, Hcase.
  split; [exact Hh|]. split.
  - exists rid', get. split; [exact Hl|]. split; [exact Hg|].
    split; [exact Hu|]. split; [|split].
    + intros Hn. destruct Hcase as [[Hj _]|(_ & -> & Hc)]; [congruence|done].
    + intros Hj. destruct Hcase as [[_ Hc]|(Hn & _)]; [done|congruence].
    + intros es o' r' Hes Ho'.
      destruct (run_inflight_stable es w1 rid' _ Hl Hlt Hes) as [Hl' _].
      by apply (query_success _ _ _ _ _ Hl' Ho').
  - intros w' e Hr'.
    destruct (cache_write w' e) as [H|(rid2 & r2 & g & -> & Hi & Hv & Hd)];
      [by left|right].
    destruct (reachable_tableOk w' Hr' _ _ _ Hi) as [_ [Hmeth Hurl]].
    exists rid2, r2, g. repeat split; try done. by apply Hurl.
Qed.

Lemma refetch_wins_witness :
  let sent := run [InputChange (JS.lit "New message"); SendClick] sampleWorld in
  let newHistory :=
    sampleHistory ++
    [ {| id := 3; content := JS.lit "New message"; reply_to := None;
         is_from_user := true; buttons := [] |} ] in
  let ok := {| status := 200; data := [] |} in
  let w1 := step sent (Settle 1 (Responded ok)) in
  reachable sent /\
  chatHistory w1 = Some sampleHistory /\
  exists rid',
    chatHistory
      (step (run [InputChange (JS.lit "next");
                  EditClick (JS.lit "1") (JS.lit "Hello!")] w1)
            (Settle rid' (Responded {| status := 200; data := newHistory |})))
    = Some newHistory.
Proof.
  intros sent newHistory ok w1.
  assert (Hr : reachable sent).
  { apply reachable_run, reachable_step, reachable_mount. }
  split; [exact Hr|].
  destruct (refetch_wins sent 1%nat SendMessageMutation
              {| method := POST; url := JS.lit "/messages";
                 body := Some (JS.lit "New message");
                 Authorization := Some (JS.lit "Bearer abc") |}
              (Responded ok) ok Hr)
    as (H1 & (rid' & get & _ & _ & _ & Hnew & _ & H3) & _); [reflexivity..|].
  split; [exact H1|]. exists rid'.
  destruct Hnew as [-> _]; [reflexivity|].
  apply (H3 [InputChange (JS.lit "next"); EditClick (JS.lit "1") (JS.lit "Hello!")]
            (Responded {| status := 200; data := newHistory |})
            {| status := 200; data := newHistory |}).
  - repeat constructor.
  - reflexivity.
Defined.

(** ** Saving an edit *)

(** C5: in a reachable world, saving a draft that does not trim to the
    empty string issues one request, a PUT to [/messages/<messageId>]
    whose [content] is the draft, and leaves the edit session open while
    it is in flight.  Whatever happens in between, when that PUT is
    fulfilled the history is fetched again (a GET of
    [/messages/history] is in flight) and the edit session is [Idle];
    when it is rejected (a response outside 2xx, or no response) the edit
    slot and the draft are what they were just before, and no request is
    issued. *)
Theorem edit_save (w : World) (messageId : list N) (es : list Event) :
  reachable w ->
  JS.truthy (JS.trim (editedContent w)) = true ->
  Forall (fun e => settlesId (nextId w) e = false) es ->
  let w1 := step w (SaveClick messageId) in
  let w2 := run es w1 in
  (exists put,
     calls w1 = put :: calls w /\
     inflight w1 !! nextId w = Some (EditMessageMutation, put) /\
     method put = PUT /\
     url put = JS.lit "/messages/" ++ messageId /\
     body put = Some (editedContent w)) /\
  editSession w1 = editSession w /\
  (forall o r,
     settle o = Fulfilled r ->
     let w3 := step w2 (Settle (nextId w) o) in
     editSession w3 = Idle /\
     chatHistory w3 = chatHistory w2 /\
     exists rid' get,
       inflight w3 !! rid' = Some (ChatHistoryQuery, get) /\
       method get = GET /\ url get = JS.lit "/messages/history" /\
       (calls w3 = get :: calls w2 \/ calls w3 = calls w2)) /\
  (forall o err,
     settle o = Rejected err ->
     let w3 := step w2 (Settle (nextId w) o) in
     editMessageId w3 = editMessageId w2 /\
     editedContent w3 = editedContent w2 /\
     editSession w3 = editSession w2 /\
     calls w3 = calls w2).
Proof.
  intros Hr Ht Hes w1 w2.
  assert (Hw1 : w1 = editMessageMutation_mutate messageId (editedContent w) w).
  { subst w1. simpl. by apply handleSaveEdit_save. }
  assert (Hl : inflight w1 !! nextId w =
               Some (EditMessageMutation,
                     HttpClient.requestInterceptor (browser w)
                       {| method := PUT; url := JS.lit "/messages/" ++ messageId;
                          body := Some (editedContent w);
                          Authorization := None |})).
  { rewrite Hw1. apply lookup_insert_eq. }
  assert (Hl2 : inflight w2 !! nextId w =
               Some (EditMessageMutation,
                     HttpClient.requestInterceptor (browser w)
                       {| method := PUT; url := JS.lit "/messages/" ++ messageId;
                          body := Some (editedContent w);
                          Authorization := None |})).
  { apply (run_inflight_stable es w1 (nextId w) _ Hl);
      [rewrite Hw1; simpl; lia|exact Hes]. }
  assert (Hr2 : reachable w2).
  { apply reachable_run. by constructor. }
  split; [|split; [|split]].
  - eexists. split; [by rewrite Hw1|]. split; [exact Hl|].
    by rewrite requestInterceptor_method, requestInterceptor_url,
      requestInterceptor_body.
  - by rewrite Hw1.
  - intros o r Ho w3.
    destruct (mutation_success w2 _ _ _ o r
                (reachable_tableOk w2 Hr2) Hl2 eq_refl Ho)
      as (Hh & Hid & _ & _ & rid' & get & Hi & _ & Hg & Hu & Hcase).
    fold w3 in Hh, Hid, Hi, Hcase.
    split; [unfold editSession; by rewrite Hid|]. split; [exact Hh|].
    exists rid', get. split; [exact Hi|]. split; [exact Hg|].
    split; [exact Hu|].
    destruct Hcase as [[_ Hc]|(_ & _ & Hc)]; [by right|by left].
  - intros o err Ho w3.
    destruct (respond_rejected o err (browser w2) Ho) as [b' Hb'].
    subst w3. simpl. rewrite (settleRequest_rejected _ _ _ _ _ _ _ Hl2 Hb').
    repeat split.
Qed.

Lemma edit_save_witness :
  let editing :=
    run [EditClick (JS.lit "1") (JS.lit "Hello!");
         EditInputChange (JS.lit "Edited message")] sampleWorld in
  let w1 := step editing (SaveClick (JS.lit "1")) in
  reachable editing /\
  head (calls w1) =
    Some {| method := PUT; url := JS.lit "/messages/1";
            body := Some (JS.lit "Edited message");
            Authorization := Some (JS.lit "Bearer abc") |} /\
  editSession (step w1 (Settle 1 (Responded {| status := 200; data := [] |})))
  = Idle /\
  editSession (step w1 (Settle 1 (Responded {| status := 500; data := [] |})))
  = Editing (JS.lit "1") (JS.lit "Edited message").
Proof.
  intros editing w1.
  assert (Hr : reachable editing).
  { apply reachable_run, reachable_step, reachable_mount. }
  split; [exact Hr|].
  destruct (edit_save editing (JS.lit "1") [] Hr) as (_ & _ & Hok & Hfail);
    [reflexivity|constructor|].
  split; [reflexivity|]. split.
  - apply (Hok (Responded {| status := 200; data := [] |})
               {| status := 200; data := [] |}). reflexivity.
  - destruct (Hfail (Responded {| status := 500; data := [] |})
                {| response := Some {| status := 500; data := [] |} |})
      as (_ & _ & H & _); [reflexivity|].
    etransitivity; [exact H|reflexivity].
Defined.


(** * Further properties *)

(** ** What goes to the transport *)

Lemma requestInterceptor_Authorization b c :
  Authorization c = None ->
  Authorization (HttpClient.requestInterceptor b c) = bearer b.
Proof.
  intros H. unfold HttpClient.requestInterceptor, bearer.
  destruct (getItem _ _) as [t|]; [destruct (JS.truthy t)|]; done.
Qed.

Lemma fetchQuery_calls (w : World) :
  calls (fetchQuery w) = calls w \/
  exists get,
    calls (fetchQuery w) = get :: calls w /\
    knownRequest get /\ Authorization get = bearer (browser w).
Proof.
  unfold fetchQuery. destruct (dedupe w && isFetching w); [by left|right].
  eexists. split; [reflexivity|]. split.
  - left. by rewrite requestInterceptor_method, requestInterceptor_url,
      requestInterceptor_body.
  - by apply requestInterceptor_Authorization.
Qed.

Lemma step_calls (w : World) (e : Event) :
  calls (step w e) = calls w \/
  exists c,
    calls (step w e) = c :: calls w /\
    knownRequest c /\ Authorization c = bearer (browser w).
Proof.
  destruct e; simpl; try (by left).
  - unfold handleSendMessage.
    destruct (JS.truthy (JS.trim (message w))) eqn:Hg; [right|by left].
    eexists. split; [reflexivity|]. split.
    + right; left.
      rewrite requestInterceptor_method, requestInterceptor_url,
        requestInterceptor_body.
      split; [done|]. split; [done|]. by exists (message w).
    + by apply requestInterceptor_Authorization.
  - right. eexists. split; [reflexivity|]. split.
    + do 3 right.
      rewrite requestInterceptor_method, requestInterceptor_url,
        requestInterceptor_body.
      split; [done|]. split; [by exists messageId|done].
    + by apply requestInterceptor_Authorization.
  - unfold handleSaveEdit.
    destruct (JS.truthy (JS.trim (editedContent w))) eqn:Hg; [right|by left].
    eexists. split; [reflexivity|]. split.
    + right; right; left.
      rewrite requestInterceptor_method, requestInterceptor_url,
        requestInterceptor_body.
      split; [done|]. split; [by exists messageId|].
      by exists (editedContent w).
    + by apply requestInterceptor_Authorization.
  - unfold settleRequest.
    destruct (inflight w !! rid) as [[op c]|] eqn:Hin; [|by left].
    destruct (settle o) as [r|err] eqn:Ho.
    + rewrite (respond_fulfilled _ _ _ Ho).
      pose proof (fetchQuery_calls (forget rid (setBrowser (browser w) w)))
        as Hf.
      destruct op; [by left|exact Hf..].
    + destruct (respond_rejected _ _ (browser w) Ho) as [b' ->].
      left. by destruct op.
Qed.

(** X1: a step of the chat view hands at most one request to the
    transport, in front of the log and leaving the earlier entries
    alone, and that request carries [Authorization: Bearer <token>] when
    a non-empty token is stored at that moment and no such header
    otherwise. *)
Theorem step_issues_one_request (w : World) (e : Event) :
  calls (step w e) = calls w \/
  exists c,
    calls (step w e) = c :: calls w /\
    Authorization c = bearer (browser w) /\
    (forall t, getItem (JS.lit "token") (browser w) = Some t -> t <> [] ->
       Authorization c = Some (JS.lit "Bearer " ++ t)) /\
    (~ (exists t, getItem (JS.lit "token") (browser w) = Some t /\ t <> []) ->
       Authorization c = None).
Proof.
  destruct (step_calls w e) as [H|(c & Hc & _ & Ha)]; [by left|right].
  exists c. split; [exact Hc|]. split; [exact Ha|]. rewrite Ha.
  unfold bearer. split.
  - intros t -> Hne. by destruct t.
  - intros Hno. destruct (getItem _ _) as [[|x t]|]; try done.
    destruct Hno. by exists (x :: t).
Qed.

Lemma step_issues_one_request_witness :
  exists c,
    calls (step sampleWorld (DeleteClick (JS.lit "1"))) = c :: calls sampleWorld /\
    Authorization c = Some (JS.lit "Bearer abc").
Proof.
  destruct (step_issues_one_request sampleWorld (DeleteClick (JS.lit "1")))
    as [H|(c & Hc & _ & Ht & _)].
  - vm_compute in H. discriminate H.
  - exists c. split; [exact Hc|].
    apply (Ht (JS.lit "abc")); [reflexivity|discriminate].
Defined.

Lemma fetchQuery_known (w : World) :
  Forall knownRequest (calls w) -> Forall knownRequest (calls (fetchQuery w)).
Proof.
  intros H. destruct (fetchQuery_calls w) as [->|(get & -> & Hk & _)]; [done|].
  by constructor.
Qed.

(** X2: every request a chat view has handed to the transport since it
    was mounted is one of four: a GET of [/messages/history] without
    body, a POST of [/messages] or a PUT of [/messages/<id>] whose
    [content] does not trim to the empty string, or a DELETE of
    [/messages/<id>] without body. *)
Theorem reachable_calls_known (w : World) :
  reachable w -> Forall knownRequest (calls w).
Proof.
  induction 1 as [d b|w e _ IH].
  - unfold mount, refetchChatHistory. do 2 apply fetchQuery_known. constructor.
  - destruct (step_calls w e) as [->|(c & -> & Hk & _)]; [done|].
    by constructor.
Qed.

Lemma reachable_calls_known_witness :
  Forall knownRequest
    (calls (run [InputChange (JS.lit "New message"); SendClick;
                 DeleteClick (JS.lit "1")] sampleWorld)).
Proof.
  apply reachable_calls_known.
  apply reachable_run, reachable_step, reachable_mount.
Defined.

(** ** The response interceptor and the browser *)

Lemma loggedOut_idem (b : Browser) : loggedOut (loggedOut b) = loggedOut b.
Proof.
  unfold loggedOut, set_location_href, removeItem. simpl.
  by rewrite delete_delete_eq.
Qed.

Lemma respond_browser (o : Outcome) (b : Browser) :
  HttpClient.respond o b =
  (match o with
   | Responded r => if status r =? 401 then loggedOut b else b
   | NoResponse => b
   end, settle o).
Proof.
  unfold HttpClient.respond. destruct o as [r|]; [|reflexivity]. simpl.
  destruct (validateStatus (status r)) eqn:Hv; simpl.
  - unfold validateStatus in Hv.
    destruct (status r =? 401) eqn:E; [|reflexivity]. lia.
  - unfold HttpClient.onResponseError. simpl.
    by destruct (status r =? 401).
Qed.

(** X3: the gateway changes the browser on a response with status 401
    and on nothing else.  An answer with any other status, successful or
    not (403, 404, 500, ...), and a failure without answer leave the
    stored token and the location as they were; the caller gets the
    promise axios settled, fulfilled exactly on a status from 200 to
    299. *)
Theorem interceptor_only_401 (o : Outcome) (b : Browser) :
  snd (HttpClient.respond o b) = settle o /\
  (forall r, o = Responded r -> status r <> 401 ->
     fst (HttpClient.respond o b) = b) /\
  (fst (HttpClient.respond o b) <> b ->
     exists r, o = Responded r /\ status r = 401 /\
               fst (HttpClient.respond o b) = loggedOut b) /\
  ((exists r, snd (HttpClient.respond o b) = Fulfilled r) <->
   exists r, o = Responded r /\ 200 <= status r < 300).
Proof.
  rewrite respond_browser. simpl. split; [reflexivity|]. split; [|split].
  - intros r -> Hne. apply Z.eqb_neq in Hne. by rewrite Hne.
  - intros Hne. destruct o as [r|]; [|done].
    destruct (status r =? 401) eqn:E; [|done].
    exists r. apply Z.eqb_eq in E. done.
  - split.
    + intros [r Hr]. apply settle_fulfilled_status in Hr as [-> Hv].
      exists r. split; [done|]. unfold validateStatus in Hv. lia.
    + intros (r & -> & Hv). exists r. apply settle_fulfilled_status.
      split; [done|]. unfold validateStatus. lia.
Qed.

Lemma interceptor_only_401_witness :
  HttpClient.respond (Responded {| status := 403; data := [] |}) sampleBrowser
  = (sampleBrowser,
     Rejected {| response := Some {| status := 403; data := [] |} |}).
Proof.
  destruct (interceptor_only_401
              (Responded {| status := 403; data := [] |}) sampleBrowser)
    as (H1 & H2 & _).
  rewrite (surjective_pairing (HttpClient.respond _ _)).
  rewrite H1, (H2 {| status := 403; data := [] |}); [reflexivity..|].
  simpl. discriminate.
Defined.

Lemma step_browser (w : World) (e : Event) :
  browser (step w e) = (if is401 e then loggedOut (browser w) else browser w) \/
  browser (step w e) = browser w.
Proof.
  destruct e; simpl; try (by right).
  - right. by guard_cases.
  - right. by guard_cases.
  - unfold settleRequest.
    destruct (inflight w !! rid) as [[op c]|]; [|by right].
    rewrite respond_browser. left.
    assert (Hf : forall w0, browser (fetchQuery w0) = browser w0)
      by (intros w0; apply fetchQuery_frame).
    destruct (settle o) as [r|err]; destruct op; simpl; rewrite ?Hf; simpl;
      by destruct o.
Qed.

Lemma run_browser_cases (es : list Event) (w : World) :
  browser (run es w) = browser w \/
  browser (run es w) = loggedOut (browser w).
Proof.
  revert w. induction es as [|e es IH]; intros w; [by left|]. simpl.
  destruct (IH (step w e)) as [-> | ->];
    destruct (step_browser w e) as [-> | ->];
    destruct (is401 e); rewrite ?loggedOut_idem; auto.
Qed.

Lemma run_browser_no401 (es : list Event) (w : World) :
  Forall (fun e => is401 e = false) es -> browser (run es w) = browser w.
Proof.
  revert w. induction es as [|e es IH]; intros w Hes; [done|].
  apply Forall_cons in Hes as [He Hes]. simpl. rewrite (IH _ Hes).
  destruct (step_browser w e) as [-> | ->]; [by rewrite He|done].
Qed.

(** X4: whatever the user does in the chat view and however its
    requests are settled, the browser is as it was or as the 401 branch
    leaves it: [token] removed, the location [/login], everything else in
    [localStorage] untouched.  The chat view never stores a token, and
    without a 401 among the answers the browser does not change at
    all. *)
Theorem chat_only_logs_out (es : list Event) (w : World) :
  (browser (run es w) = browser w \/
   browser (run es w) = loggedOut (browser w)) /\
  (getItem (JS.lit "token") (browser w) = None ->
   getItem (JS.lit "token") (browser (run es w)) = None) /\
  (Forall (fun e => is401 e = false) es -> browser (run es w) = browser w).
Proof.
  split; [apply run_browser_cases|]. split; [|apply run_browser_no401].
  intros Hn. destruct (run_browser_cases es w) as [-> | ->]; [done|].
  apply lookup_delete_eq.
Qed.

Lemma chat_only_logs_out_witness :
  let es := [InputChange (JS.lit "hi"); SendClick;
             Settle 1 (Responded {| status := 500; data := [] |});
             DeleteClick (JS.lit "1"); Settle 2 NoResponse] in
  browser (run es sampleWorld) = sampleBrowser /\
  getItem (JS.lit "token")
    (browser (run es (setBrowser (loggedOut sampleBrowser) sampleWorld))) = None.
Proof.
  intros es. split.
  - apply (chat_only_logs_out es sampleWorld). repeat constructor.
  - apply (chat_only_logs_out es (setBrowser (loggedOut sampleBrowser) sampleWorld)).
    reflexivity.
Defined.

(** ** Deleting a message *)

(** X5: in a reachable world, Delete on a message issues one request, a
    DELETE of [/messages/<messageId>] without body, at once and without
    asking; the cached history and the view stay as they are (the
    message is not taken out locally).  Whatever happens in between,
    when that DELETE is fulfilled the history is fetched again and the
    cache, the edit session and the input are untouched by the handler;
    when it is rejected nothing is issued and the view does not
    change. *)
Theorem delete_message (w : World) (messageId : list N) (es : list Event) :
  reachable w ->
  Forall (fun e => settlesId (nextId w) e = false) es ->
  let w1 := step w (DeleteClick messageId) in
  let w2 := run es w1 in
  (exists del,
     calls w1 = del :: calls w /\
     inflight w1 !! nextId w = Some (DeleteMessageMutation, del) /\
     method del = DELETE /\
     url del = JS.lit "/messages/" ++ messageId /\
     body del = None) /\
  chatHistory w1 = chatHistory w /\
  render w1 = render w /\
  (forall o r,
     settle o = Fulfilled r ->
     let w3 := step w2 (Settle (nextId w) o) in
     chatHistory w3 = chatHistory w2 /\
     editSession w3 = editSession w2 /\
     message w3 = message w2 /\
     exists rid' get,
       inflight w3 !! rid' = Some (ChatHistoryQuery, get) /\
       method get = GET /\ url get = JS.lit "/messages/history") /\
  (forall o err,
     settle o = Rejected err ->
     let w3 := step w2 (Settle (nextId w) o) in
     chatHistory w3 = chatHistory w2 /\
     calls w3 = calls w2 /\
     render w3 = render w2).
Proof.
  intros Hr Hes w1 w2.
  assert (Hl : inflight w1 !! nextId w =
               Some (DeleteMessageMutation,
                     HttpClient.requestInterceptor (browser w)
                       {| method := DELETE; url := JS.lit "/messages/" ++ messageId;
                          body := None; Authorization := None |})).
  { apply lookup_insert_eq. }
  assert (Hl2 : inflight w2 !! nextId w =
               Some (DeleteMessageMutation,
                     HttpClient.requestInterceptor (browser w)
                       {| method := DELETE; url := JS.lit "/messages/" ++ messageId;
                          body := None; Authorization := None |})).
  { apply (run_inflight_stable es w1 (nextId w) _ Hl); [simpl; lia|exact Hes]. }
  assert (Hr2 : reachable w2).
  { apply reachable_run. by constructor. }
  split; [|split; [|split; [|split]]].
  - eexists. split; [reflexivity|]. split; [exact Hl|].
    by rewrite requestInterceptor_method, requestInterceptor_url,
      requestInterceptor_body.
  - reflexivity.
  - reflexivity.
  - intros o r Ho w3.
    destruct (mutation_success w2 _ _ _ o r
                (reachable_tableOk w2 Hr2) Hl2 eq_refl Ho)
      as (Hh & Hid & Hed & Hm & rid' & get & Hi & _ & Hg & Hu & _).
    fold w3 in Hh, Hid, Hed, Hm, Hi.
    split; [exact Hh|]. split; [unfold editSession; by rewrite Hid, Hed|].
    split; [exact Hm|]. by exists rid', get.
  - intros o err Ho w3.
    destruct (respond_rejected o err (browser w2) Ho) as [b' Hb'].
    subst w3. simpl. rewrite (settleRequest_rejected _ _ _ _ _ _ _ Hl2 Hb').
    repeat split.
Qed.

Lemma delete_message_witness :
  let w1 := step sampleWorld (DeleteClick (JS.lit "1")) in
  lastCall w1 = Some (DELETE, JS.lit "/messages/1", None) /\
  render w1 = render sampleWorld /\
  chatHistory (step w1 (Settle 1 (Responded {| status := 404; data := [] |})))
  = Some sampleHistory.
Proof.
  intros w1.
  assert (Hr : reachable sampleWorld) by apply reachable_step, reachable_mount.
  destruct (delete_message sampleWorld (JS.lit "1") [] Hr)
    as (_ & _ & Hv & _ & Hfail); [constructor|].
  split; [reflexivity|]. split; [exact Hv|].
  destruct (Hfail (Responded {| status := 404; data := [] |})
              {| response := Some {| status := 404; data := [] |} |})
    as (H & _); [reflexivity|].
  etransitivity; [exact H|reflexivity].
Defined.

(** ** Sending *)

(** X6: when the POST of a send is rejected, the text that was sent is
    lost to the view: the input is empty, the cached history is what it
    was, the request is no longer pending and nothing further is issued
    (no retry, no refetch), and the view shows no error: it is the view
    of before with the input emptied. *)
Theorem failed_send_loses_text (w : World) (o : Outcome) (err : Error) :
  JS.truthy (JS.trim (message w)) = true ->
  settle o = Rejected err ->
  let w1 := step w SendClick in
  let w2 := step w1 (Settle (nextId w) o) in
  message w2 = [] /\
  chatHistory w2 = chatHistory w /\
  (exists post, calls w2 = post :: calls w /\ method post = POST /\
                body post = Some (message w)) /\
  inflight w2 !! nextId w = None /\
  render w2 = render (setMessage [] w).
Proof.
  intros Hg Ho w1 w2.
  assert (Hw1 : w1 = setMessage [] (sendMessageMutation_mutate (message w) w)).
  { subst w1. simpl. by apply handleSendMessage_send. }
  assert (Hl : inflight w1 !! nextId w =
               Some (SendMessageMutation,
                     HttpClient.requestInterceptor (browser w)
                       {| method := POST; url := JS.lit "/messages";
                          body := Some (message w); Authorization := None |})).
  { rewrite Hw1. apply lookup_insert_eq. }
  destruct (respond_rejected o err (browser w1) Ho) as [b' Hb'].
  subst w2. simpl. rewrite (settleRequest_rejected _ _ _ _ _ _ _ Hl Hb').
  rewrite Hw1. simpl.
  split; [reflexivity|]. split; [reflexivity|]. split.
  - eexists. split; [reflexivity|].
    by rewrite requestInterceptor_method, requestInterceptor_body.
  - split; [apply lookup_delete_eq|reflexivity].
Qed.

Lemma failed_send_loses_text_witness :
  let w := step sampleWorld (InputChange (JS.lit "New message")) in
  let w2 := step (step w SendClick) (Settle 1 NoResponse) in
  message w2 = [] /\ chatHistory w2 = Some sampleHistory /\
  render w2 = render sampleWorld.
Proof.
  intros w w2.
  destruct (failed_send_loses_text w NoResponse {| response := None |})
    as (H1 & H2 & _ & _ & H5); [reflexivity..|].
  split; [exact H1|]. split; [exact H2|].
  etransitivity; [exact H5|reflexivity].
Defined.

Lemma send_after_send (w : World) :
  step (step w SendClick) SendClick = step w SendClick.
Proof.
  simpl. destruct (JS.truthy (JS.trim (message w))) eqn:Hg.
  - rewrite (handleSendMessage_send w Hg).
    by apply handleSendMessage_blank.
  - assert (Hw : handleSendMessage w = w).
    { unfold handleSendMessage. by rewrite Hg. }
    by rewrite !Hw.
Qed.

(** X7: further clicks on Send right after the first do nothing: the
    input was emptied by the first, so the guard stops the others.  One
    text typed gives at most one POST however often Send is clicked. *)
Theorem double_send_sends_once (w : World) (n : nat) :
  run (repeat SendClick (S n)) w = step w SendClick.
Proof.
  revert w. induction n as [|n IH]; intros w; [reflexivity|].
  change (run (repeat SendClick (S (S n))) w)
    with (run (repeat SendClick (S n)) (step w SendClick)).
  rewrite IH. apply send_after_send.
Qed.

(** ** Save and Delete are not guarded against repeats *)

(** X8: Save and Delete stay available while their request is in
    flight, and each click issues a request of its own: two clicks on
    Save with a draft that does not trim to the empty string put two
    equal PUTs in flight, and two clicks on Delete two equal DELETEs. *)
Theorem repeated_save_and_delete (w : World) (messageId : list N) :
  (JS.truthy (JS.trim (editedContent w)) = true ->
   let w2 := run [SaveClick messageId; SaveClick messageId] w in
   exists put,
     calls w2 = put :: put :: calls w /\
     method put = PUT /\ url put = JS.lit "/messages/" ++ messageId /\
     body put = Some (editedContent w) /\
     inflight w2 !! nextId w = Some (EditMessageMutation, put) /\
     inflight w2 !! S (nextId w) = Some (EditMessageMutation, put) /\
     editSession w2 = editSession w) /\
  (let w2 := run [DeleteClick messageId; DeleteClick messageId] w in
   exists del,
     calls w2 = del :: del :: calls w /\
     method del = DELETE /\ url del = JS.lit "/messages/" ++ messageId /\
     inflight w2 !! nextId w = Some (DeleteMessageMutation, del) /\
     inflight w2 !! S (nextId w) = Some (DeleteMessageMutation, del)).
Proof.
  split.
  - intros Hg w2. subst w2. simpl.
    rewrite (handleSaveEdit_save messageId w Hg).
    rewrite handleSaveEdit_save by exact Hg. simpl.
    eexists. split; [reflexivity|].
    rewrite requestInterceptor_method, requestInterceptor_url,
      requestInterceptor_body.
    do 3 (split; [reflexivity|]). split.
    + rewrite lookup_insert_ne by lia. apply lookup_insert_eq.
    + split; [apply lookup_insert_eq|reflexivity].
  - intros w2. subst w2. simpl.
    eexists. split; [reflexivity|].
    rewrite requestInterceptor_method, requestInterceptor_url.
    do 2 (split; [reflexivity|]). split.
    + rewrite lookup_insert_ne by lia. apply lookup_insert_eq.
    + apply lookup_insert_eq.
Qed.

Lemma repeated_save_and_delete_witness :
  let editing := step sampleWorld (EditClick (JS.lit "1") (JS.lit "Hello!")) in
  exists put,
    calls (run [SaveClick (JS.lit "1"); SaveClick (JS.lit "1")] editing)
    = put :: put :: calls editing /\
    body put = Some (JS.lit "Hello!").
Proof.
  intros editing.
  destruct (repeated_save_and_delete editing (JS.lit "1")) as [H _].
  destruct H as (put & Hc & _ & _ & Hb & _); [reflexivity|].
  exists put. split; [exact Hc|exact Hb].
Defined.

(** ** What a settlement leaves alone *)

(** X9: the settlement of a request, of any operation and with any
    outcome, never changes the text in the message input or the draft
    of the edit form.  It changes the edit slot in one case only: a
    fulfilled PUT of an edit empties it. *)
Theorem settle_frames (w : World) (rid : nat) (o : Outcome) :
  let w' := step w (Settle rid o) in
  message w' = message w /\
  editedContent w' = editedContent w /\
  (editMessageId w' = editMessageId w \/
   editMessageId w' = None /\
   exists put r,
     inflight w !! rid = Some (EditMessageMutation, put) /\
     settle o = Fulfilled r).
Proof.
  simpl. unfold settleRequest.
  destruct (inflight w !! rid) as [[op c]|] eqn:Hin; [|by auto].
  rewrite respond_browser.
  set (b := match o with
            | Responded r => if status r =? 401 then loggedOut (browser w)
                             else browser w
            | NoResponse => browser w
            end).
  destruct (fetchQuery_frame (forget rid (setBrowser b w)))
    as (_ & Hm & Hid & Hed & _).
  destruct (settle o) as [r|err] eqn:Ho; destruct op; simpl;
    rewrite ?Hm, ?Hid, ?Hed; simpl; try (by auto).
  split; [done|]. split; [done|]. right. split; [done|]. by exists c, r.
Qed.

(** A history that no longer has the message under edit leaves the edit
    slot as it is. *)
Example edit_slot_survives_refetch :
  let w := run [EditClick (JS.lit "1") (JS.lit "Hello!");
                InputChange (JS.lit "x"); SendClick;
                Settle 1 (Responded {| status := 200; data := [] |});
                Settle 2 (Responded {| status := 200; data := [] |})]
               sampleWorld in
  chatHistory w = Some [] /\
  editSession w = Editing (JS.lit "1") (JS.lit "Hello!").
Proof. split; reflexivity. Qed.

(** ** What the view shows *)

Lemma ChatMessageView_cells (w w' : World) (chat : ChatMessage) :
  editMessageId w' = editMessageId w -> editedContent w' = editedContent w ->
  ChatMessageView w' chat = ChatMessageView w chat.
Proof. intros H1 H2. unfold ChatMessageView. by rewrite H1, H2. Qed.



Lemma fetchQuery_queryOk (w : World) : queryOk w -> queryOk (fetchQuery w).
Proof.
  unfold fetchQuery. destruct (dedupe w && isFetching w); [done|].
  unfold queryOk. simpl. destruct (qdata (query w)) eqn:E; [|done].
  by rewrite E.
Qed.

Lemma step_queryOk (w : World) (e : Event) : queryOk w -> queryOk (step w e).
Proof.
  intros Hw. destruct e; simpl; try exact Hw.
  - by guard_cases.
  - by guard_cases.
  - unfold settleRequest.
    destruct (inflight w !! rid) as [[op c]|]; [|exact Hw].
    destruct (HttpClient.respond o (browser w)) as [b res].
    assert (Hf : queryOk (forget rid (setBrowser b w))) by exact Hw.
    destruct res as [r|err]; destruct op;
      first [ exact Hf | exact (fetchQuery_queryOk _ Hf)
            | unfold queryOk; simpl; eauto ].
Qed.

Lemma reachable_queryOk (w : World) : reachable w -> queryOk w.
Proof.
  induction 1 as [d b|w e _ IH]; [|by apply step_queryOk].
  unfold mount, refetchChatHistory. by do 2 apply fetchQuery_queryOk.
Qed.

Lemma run_history_kept (es : list Event) (w : World) :
  is_Some (chatHistory w) -> is_Some (chatHistory (run es w)).
Proof.
  revert w. induction es as [|e es IH]; intros w Hw; [done|].
  simpl. apply IH.
  destruct (cache_write w e) as [->|(rid & r & get & _ & _ & _ & ->)]; eauto.
Qed.

(** X11: in a chat view since its mount, with the status of the query
    as [useQuery] reports it: the Loading view shows only while no
    history has ever arrived; once one has, no later event brings the
    cache back to empty or the Loading view back; and a chat view on
    screen always lists a cached history, so the optional chaining on
    [chatHistory] never meets [undefined] there. *)
Theorem loading_only_before_first_history (w : World) (es : list Event) :
  reachable w ->
  (render w = LoadingView -> chatHistory w = None) /\
  (is_Some (chatHistory w) ->
   is_Some (chatHistory (run es w)) /\ render (run es w) <> LoadingView) /\
  (forall body input,
     render w = ChatView body input ->
     exists h, chatHistory w = Some h /\
               body = map (ChatMessageView w) h /\ input = message w).
Proof.
  intros Hr.
  assert (Hload : forall w0, reachable w0 -> render w0 = LoadingView ->
                             chatHistory w0 = None).
  { intros w0 Hr0. pose proof (reachable_queryOk w0 Hr0) as Hq.
    unfold render, isLoading, hasError, queryOk, chatHistory in *.
    destruct (qstatus (query w0)); done. }
  split; [by apply Hload|]. split.
  - intros Hs. pose proof (run_history_kept es w Hs) as Hk.
    split; [exact Hk|]. intros Hv.
    apply Hload in Hv; [|by apply reachable_run].
    rewrite Hv in Hk. by destruct Hk.
  - intros body input Hv. pose proof (reachable_queryOk w Hr) as Hq.
    unfold render, isLoading, hasError, queryOk, chatHistory in *.
    destruct (qstatus (query w)); try discriminate.
    destruct Hq as [h Hh]. exists h. rewrite Hh in Hv |- *.
    by injection Hv as <- <-.
Qed.

Lemma loading_only_before_first_history_witness :
  let es := [DeleteClick (JS.lit "1");
             Settle 1 (Responded {| status := 200; data := [] |});
             Settle 2 NoResponse; InputChange (JS.lit "x"); SendClick;
             Settle 3 (Responded {| status := 201; data := [] |})] in
  render (mount true sampleBrowser) = LoadingView /\
  render (run es sampleWorld) <> LoadingView.
Proof.
  intros es. split; [reflexivity|].
  assert (Hr : reachable sampleWorld) by apply reachable_step, reachable_mount.
  destruct (loading_only_before_first_history sampleWorld es Hr)
    as (_ & H & _).
  apply H. by eexists.
Defined.

(** ** From the Edit button to the PUT *)

Lemma last_cons {A} (v : A) (vs : list A) (d : A) :
  List.last (v :: vs) d = List.last vs v.
Proof.
  revert v d. induction vs as [|x vs IH]; intros v d; [reflexivity|].
  change (List.last (v :: x :: vs) d) with (List.last (x :: vs) d).
  by rewrite !IH.
Qed.

Lemma run_typing (vs : list (list N)) (w : World) :
  run (map EditInputChange vs) w
  = setEditedContent (lastDraft (editedContent w) vs) w.
Proof.
  revert w. induction vs as [|v vs IH]; intros w.
  - by destruct w.
  - change (run (map EditInputChange (v :: vs)) w)
      with (run (map EditInputChange vs) (setEditedContent v w)).
    rewrite IH. unfold lastDraft. rewrite last_cons. reflexivity.
Qed.

(** X12: the path from the Edit button of a message of the user to the
    request.  After a click on Edit and any changes typed into the edit
    form, that message is drawn as the edit form holding the last text
    typed (its own content when nothing was typed), nothing has gone to
    the transport, and, when that text does not trim to the empty
    string, the Save button of the form issues one PUT of
    [/messages/<id of that message>] with that text as [content]. *)
Theorem edit_flow (w : World) (chat : ChatMessage) (vs : list (list N)) :
  is_from_user chat = true ->
  JS.truthy (JS.trim (lastDraft (content chat) vs)) = true ->
  exists e,
    onEditClick chat = Some e /\
    let w1 := run (e :: map EditInputChange vs) w in
    let save := SaveClick (JS.toString (id chat)) in
    ChatMessageView w1 chat
    = EditMessageForm (lastDraft (content chat) vs) save /\
    calls w1 = calls w /\
    chatHistory w1 = chatHistory w /\
    exists put,
      calls (step w1 save) = put :: calls w /\
      method put = PUT /\
      url put = JS.lit "/messages/" ++ JS.toString (id chat) /\
      body put = Some (lastDraft (content chat) vs).
Proof.
  intros Hu Hg. eexists. split; [unfold onEditClick; by rewrite Hu|].
  intros w1 save.
  assert (Hw1 : w1 = setEditedContent (lastDraft (content chat) vs)
                       (setEditMessageId (Some (JS.toString (id chat))) w)).
  { subst w1. change (run (?e :: ?l) w) with (run l (step w e)).
    rewrite run_typing. reflexivity. }
  split; [|split; [|split]].
  - rewrite Hw1. unfold ChatMessageView. simpl. by rewrite decide_True.
  - by rewrite Hw1.
  - by rewrite Hw1.
  - subst save. simpl. rewrite handleSaveEdit_save; rewrite Hw1; [|exact Hg].
    eexists. split; [reflexivity|].
    by rewrite requestInterceptor_method, requestInterceptor_url,
      requestInterceptor_body.
Qed.

Lemma edit_flow_witness :
  let chat := {| id := 1; content := JS.lit "Hello!"; reply_to := None;
                 is_from_user := true; buttons := [] |} in
  let w1 := run [EditClick (JS.lit "1") (JS.lit "Hello!");
                 EditInputChange (JS.lit "Edited");
                 EditInputChange (JS.lit "Edited message")] sampleWorld in
  exists put,
    calls (step w1 (SaveClick (JS.lit "1"))) = put :: calls sampleWorld /\
    url put = JS.lit "/messages/1" /\
    body put = Some (JS.lit "Edited message").
Proof.
  intros chat w1.
  destruct (edit_flow sampleWorld chat
              [JS.lit "Edited"; JS.lit "Edited message"])
    as (e & He & _ & _ & _ & put & Hc & _ & Hu & Hb); [reflexivity..|].
  injection He as <-.
  exists put. split; [exact Hc|]. split; [exact Hu|exact Hb].
Defined.

(** ** Logging in and signing up *)


Lemma loggedOut_guard (b : Browser) :
  ProtectedRoute (loggedOut b) = Navigate (JS.lit "/login") true /\
  bearer (loggedOut b) = None /\
  getItem (JS.lit "token") (loggedOut b) = None.
Proof.
  assert (H : getItem (JS.lit "token") (loggedOut b) = None)
    by apply lookup_delete_eq.
  unfold ProtectedRoute, isAuthenticated, bearer. by rewrite H.
Qed.

Lemma handleLogin_fulfilled (p : Pages.Page) s tok :
  validateStatus s = true ->
  Pages.handleLogin (Pages.PageResponded s tok) p =
  Pages.navigate (JS.lit "/chat")
    (Pages.withEnv
       (setItem (JS.lit "token") (Pages.storedString tok) (Pages.env p)) p).
Proof.
  intros Hv. unfold Pages.handleLogin. rewrite respond_browser. simpl.
  rewrite Hv. unfold validateStatus in Hv.
  destruct (s =? 401) eqn:E; [lia|reflexivity].
Qed.

Lemma handleLogin_rejected (p : Pages.Page) o err :
  settle (Pages.transport o) = Rejected err ->
  Pages.handleLogin o p =
  Pages.console_error (JS.lit "Login failed")
    (Pages.withEnv
       (match o with
        | Pages.PageResponded s _ =>
            if s =? 401 then loggedOut (Pages.env p) else Pages.env p
        | Pages.PageNoResponse => Pages.env p
        end) p).
Proof.
  intros Ho. unfold Pages.handleLogin. rewrite respond_browser, Ho.
  by destruct o.
Qed.

(** X13: a login whose request is fulfilled stores the
    [access_token] of the answer under [token] (the text ["undefined"]
    when the answer has no such field), leaves the rest of
    [localStorage] alone, goes to [/chat] and logs nothing.  From then
    on the route guard admits and the gateway sends that token as the
    bearer, unless the token is the empty string. *)
Theorem login_success (p : Pages.Page) (s : Z) (tok : option (list N)) :
  200 <= s < 300 ->
  let p' := Pages.handleLogin (Pages.PageResponded s tok) p in
  getItem (JS.lit "token") (Pages.env p') = Some (Pages.storedString tok) /\
  location_href (Pages.env p') = JS.lit "/chat" /\
  (forall k, k <> JS.lit "token" ->
     getItem k (Pages.env p') = getItem k (Pages.env p)) /\
  Pages.errors p' = Pages.errors p /\
  Pages.alerts p' = Pages.alerts p /\
  (ProtectedRoute (Pages.env p') = Outlet <-> tok <> Some []) /\
  (tok <> Some [] ->
   bearer (Pages.env p') = Some (JS.lit "Bearer " ++ Pages.storedString tok)).
Proof.
  intros Hs p'. subst p'.
  rewrite handleLogin_fulfilled by (unfold validateStatus; lia).
  assert (Ht : getItem (JS.lit "token")
                 (set_location_href (JS.lit "/chat")
                    (setItem (JS.lit "token") (Pages.storedString tok)
                       (Pages.env p)))
               = Some (Pages.storedString tok)) by apply lookup_insert_eq.
  simpl. split; [exact Ht|]. split; [reflexivity|]. split.
  - intros k Hk. unfold getItem. simpl. by rewrite lookup_insert_ne.
  - split; [reflexivity|]. split; [reflexivity|].
    unfold ProtectedRoute, isAuthenticated, bearer. rewrite Ht.
    destruct tok as [[|x t]|]; simpl; split; done.
Qed.

Lemma login_success_witness :
  let p := {| Pages.env := removeItem (JS.lit "token") sampleBrowser;
              Pages.alerts := []; Pages.errors := [] |} in
  let p' := Pages.handleLogin (Pages.PageResponded 200 (Some (JS.lit "jwt"))) p in
  ProtectedRoute (Pages.env p) = Navigate (JS.lit "/login") true /\
  ProtectedRoute (Pages.env p') = Outlet /\
  bearer (Pages.env p') = Some (JS.lit "Bearer jwt").
Proof.
  intros p p'.
  destruct (login_success p 200 (Some (JS.lit "jwt")))
    as (_ & _ & _ & _ & _ & Hg & Hb); [lia|].
  split; [reflexivity|]. split.
  - apply Hg. discriminate.
  - apply Hb. discriminate.
Defined.

(** X14: a login whose request is rejected logs ["Login failed"] and
    stores nothing, whatever the answer carries.  The browser is as it
    was, except on an answer 401 (as to a wrong password), where the
    interceptor removes a token that was stored and sets the location
    to [/login].  So a failed login never lets through a guard that did
    not let through before. *)
Theorem login_failure (p : Pages.Page) (o : Pages.PageOutcome) (err : Error) :
  settle (Pages.transport o) = Rejected err ->
  let p' := Pages.handleLogin o p in
  Pages.errors p' = JS.lit "Login failed" :: Pages.errors p /\
  Pages.alerts p' = Pages.alerts p /\
  (forall s tok, o = Pages.PageResponded s tok -> s <> 401 ->
     Pages.env p' = Pages.env p) /\
  (o = Pages.PageNoResponse -> Pages.env p' = Pages.env p) /\
  (forall tok, o = Pages.PageResponded 401 tok ->
     Pages.env p' = loggedOut (Pages.env p)) /\
  (ProtectedRoute (Pages.env p') = Outlet ->
   ProtectedRoute (Pages.env p) = Outlet /\ Pages.env p' = Pages.env p).
Proof.
  intros Ho p'. subst p'. rewrite (handleLogin_rejected p o err Ho). simpl.
  split; [reflexivity|]. split; [reflexivity|]. split; [|split; [|split]].
  - intros s tok -> Hne. apply Z.eqb_neq in Hne. by rewrite Hne.
  - by intros ->.
  - by intros tok ->.
  - destruct o as [s tok|]; [|done].
    destruct (s =? 401); [|done].
    intros H. destruct (loggedOut_guard (Pages.env p)) as [Hg _].
    rewrite Hg in H. discriminate.
Qed.

Lemma login_failure_witness :
  let p := {| Pages.env := sampleBrowser; Pages.alerts := []; Pages.errors := [] |} in
  Pages.env (Pages.handleLogin (Pages.PageResponded 422 (Some (JS.lit "jwt"))) p)
  = sampleBrowser /\
  getItem (JS.lit "token")
    (Pages.env (Pages.handleLogin (Pages.PageResponded 401 None) p)) = None.
Proof.
  intros p. split.
  - destruct (login_failure p (Pages.PageResponded 422 (Some (JS.lit "jwt")))
                {| response := Some {| status := 422; data := [] |} |})
      as (_ & _ & H & _); [reflexivity|].
    apply (H 422 (Some (JS.lit "jwt"))); [reflexivity|lia].
  - destruct (login_failure p (Pages.PageResponded 401 None)
                {| response := Some {| status := 401; data := [] |} |})
      as (_ & _ & _ & _ & H & _); [reflexivity|].
    rewrite (H None eq_refl). apply lookup_delete_eq.
Defined.

Lemma handleSignUp_env (p : Pages.Page) (o : Pages.PageOutcome) :
  (localStorage (Pages.env (Pages.handleSignUp o p)) = localStorage (Pages.env p) \/
   Pages.env (Pages.handleSignUp o p) = loggedOut (Pages.env p)) /\
  (localStorage (Pages.env (Pages.handleSignUp_navigate o p))
   = localStorage (Pages.env p) \/
   Pages.env (Pages.handleSignUp_navigate o p) = loggedOut (Pages.env p)).
Proof.
  unfold Pages.handleSignUp, Pages.handleSignUp_navigate.
  rewrite respond_browser.
  destruct o as [s tok|]; simpl; [|auto].
  destruct (validateStatus s) eqn:Hv; destruct (s =? 401) eqn:E; simpl; auto.
Qed.

Lemma storage_guard (b b' : Browser) :
  localStorage b' = localStorage b \/ b' = loggedOut b ->
  ProtectedRoute b' = Outlet -> ProtectedRoute b = Outlet.
Proof.
  intros [H|H].
  - unfold ProtectedRoute, isAuthenticated, getItem. by rewrite H.
  - rewrite H. destruct (loggedOut_guard b) as [Hg _]. rewrite Hg.
    discriminate.
Qed.

(** X15: signing up never logs in, in either version of
    [handleSignUp].  When the request is fulfilled the page shows the
    alert ["User created successfully"] with [localStorage] untouched
    (the version that navigates then goes to [/login], the other stays
    where it is); when it is rejected it logs ["Sign up error"], shows
    no alert and does not navigate (a 401 apart, which logs out as
    everywhere).  In no case does the guard let through afterwards when
    it did not before. *)
Theorem signup_never_authenticates (p : Pages.Page) (o : Pages.PageOutcome) :
  let p1 := Pages.handleSignUp o p in
  let p2 := Pages.handleSignUp_navigate o p in
  (ProtectedRoute (Pages.env p1) = Outlet ->
   ProtectedRoute (Pages.env p) = Outlet) /\
  (ProtectedRoute (Pages.env p2) = Outlet ->
   ProtectedRoute (Pages.env p) = Outlet) /\
  (forall r, settle (Pages.transport o) = Fulfilled r ->
     Pages.env p1 = Pages.env p /\
     localStorage (Pages.env p2) = localStorage (Pages.env p) /\
     location_href (Pages.env p2) = JS.lit "/login" /\
     Pages.alerts p1 = JS.lit "User created successfully" :: Pages.alerts p /\
     Pages.alerts p2 = Pages.alerts p1 /\
     Pages.errors p1 = Pages.errors p /\ Pages.errors p2 = Pages.errors p) /\
  (forall err, settle (Pages.transport o) = Rejected err ->
     p2 = p1 /\
     Pages.alerts p1 = Pages.alerts p /\
     Pages.errors p1 = JS.lit "Sign up error" :: Pages.errors p /\
     (Pages.env p1 = Pages.env p \/ Pages.env p1 = loggedOut (Pages.env p))).
Proof.
  intros p1 p2. destruct (handleSignUp_env p o) as [H1 H2].
  split; [by apply storage_guard|]. split; [by apply storage_guard|]. split.
  - intros r Ho. subst p1 p2.
    unfold Pages.handleSignUp, Pages.handleSignUp_navigate.
    rewrite (respond_fulfilled _ _ _ Ho). done.
  - intros err Ho. subst p1 p2.
    unfold Pages.handleSignUp, Pages.handleSignUp_navigate.
    rewrite respond_browser, Ho. simpl.
    do 3 (split; [done|]).
    destruct o as [s tok|]; simpl; [destruct (s =? 401)|]; auto.
Qed.

Lemma signup_never_authenticates_witness :
  let p := {| Pages.env := removeItem (JS.lit "token") sampleBrowser;
              Pages.alerts := []; Pages.errors := [] |} in
  let o := Pages.PageResponded 201 (Some (JS.lit "jwt")) in
  location_href (Pages.env (Pages.handleSignUp_navigate o p)) = JS.lit "/login" /\
  Pages.alerts (Pages.handleSignUp o p) = [JS.lit "User created successfully"] /\
  Pages.errors (Pages.handleSignUp (Pages.PageResponded 409 None) p)
  = [JS.lit "Sign up error"].
Proof.
  intros p o.
  destruct (signup_never_authenticates p o) as (_ & _ & H & _).
  destruct (H {| status := 201; data := [] |}) as (_ & _ & H2 & H3 & _);
    [reflexivity|].
  split; [exact H2|]. split; [exact H3|].
  destruct (signup_never_authenticates p (Pages.PageResponded 409 None))
    as (_ & _ & _ & Hf).
  destruct (Hf {| response := Some {| status := 409; data := [] |} |})
    as (_ & _ & He & _); [reflexivity|exact He].
Defined.

(** ** A session from login to logout *)





(** ** From the Delete button to the DELETE *)

Lemma toString_url_inj (m n : Z) :
  JS.lit "/messages/" ++ JS.toString m = JS.lit "/messages/" ++ JS.toString n ->
  m = n.
Proof. intros H. apply app_inv_head in H. by apply toString_inj. Qed.

(** X17: Edit and Delete are offered on the messages of the user and
    on no message of the bot.  The Delete button of a message issues
    one DELETE of [/messages/<the printed id>] without body, and the
    requests of two messages have the same path only when the messages
    have the same id. *)
Theorem delete_flow (w : World) (chat : ChatMessage) :
  (is_from_user chat = false ->
   onEditClick chat = None /\ onDeleteClick chat = None) /\
  (is_from_user chat = true ->
   exists e del,
     onDeleteClick chat = Some e /\
     calls (step w e) = del :: calls w /\
     method del = DELETE /\
     url del = JS.lit "/messages/" ++ JS.toString (id chat) /\
     body del = None /\
     chatHistory (step w e) = chatHistory w /\
     forall chat' e' del',
       onDeleteClick chat' = Some e' ->
       head (calls (step w e')) = Some del' ->
       url del' = url del -> id chat' = id chat).
Proof.
  split.
  - intros H. unfold onEditClick, onDeleteClick. by rewrite H.
  - intros H. unfold onDeleteClick. rewrite H.
    eexists _, _. split; [reflexivity|]. split; [reflexivity|].
    rewrite requestInterceptor_method, requestInterceptor_url,
      requestInterceptor_body.
    do 4 (split; [reflexivity|]).
    intros chat' e' del'. destruct (is_from_user chat'); [|discriminate].
    intros [= <-]. simpl. intros [= <-].
    rewrite requestInterceptor_url. simpl. apply toString_url_inj.
Qed.

Lemma delete_flow_witness :
  let chat := {| id := 1; content := JS.lit "Hello!"; reply_to := None;
                 is_from_user := true; buttons := [] |} in
  onDeleteClick chat = Some (DeleteClick (JS.lit "1")) /\
  exists del,
    calls (step sampleWorld (DeleteClick (JS.lit "1"))) = del :: calls sampleWorld /\
    url del = JS.lit "/messages/1".
Proof.
  intros chat.
  destruct (delete_flow sampleWorld chat) as [_ H].
  destruct H as (e & del & He & Hc & _ & Hu & _); [reflexivity|].
  split; [reflexivity|]. injection He as <-.
  exists del. split; [exact Hc|exact Hu].
Defined.
